(** * ACIP to TEI conversion (convert.py): a shallow embedding

    Python [str] values are modelled as Rocq [string]s.  [convert_file]
    passes every input through [sanitize_str] first, which keeps only
    tab, newline, carriage return and the printable 7-bit characters, so
    the text the converter works on is ASCII; the output of the
    transliteration adapter is carried as its UTF-8 byte sequence.
    Character classes ([str.isalpha], [str.lower], the regex classes
    [\s], [\S], [\d]) are therefore the ASCII ones.

    The two transliteration libraries ([ACIPtoEWTS], [pyewts]) and the
    XML parser ([xml.etree]) are not part of the repository: they are
    parameters of the sections that use them. *)

From Stdlib Require Import String Ascii List Bool Arith ZArith Lia DecimalString.
Import ListNotations.
Open Scope list_scope.
Open Scope string_scope.
Open Scope nat_scope.

(** ** Characters *)

Definition LF : ascii := "010"%char.
Definition CR : ascii := "013"%char.
Definition TAB : ascii := "009"%char.
Definition SP : ascii := " "%char.
Definition DQ : ascii := "034"%char.

Definition code (c : ascii) : nat := nat_of_ascii c.

Definition in_range (lo hi : nat) (c : ascii) : bool :=
  (lo <=? code c) && (code c <=? hi).

(** [str.isspace] on ASCII: 0x09-0x0D, 0x1C-0x1F and the space.  This is
    the set [str.strip()] removes and the regex class [\s] matches. *)
Definition is_space (c : ascii) : bool :=
  in_range 9 13 c || in_range 28 32 c.

(** [str.isalpha] on ASCII. *)
Definition is_alpha (c : ascii) : bool :=
  in_range 65 90 c || in_range 97 122 c.

(** The regex class [\d] / [0-9]. *)
Definition is_digit (c : ascii) : bool := in_range 48 57 c.

(** [str.lower] on one ASCII character. *)
Definition lower_char (c : ascii) : ascii :=
  if in_range 65 90 c then ascii_of_nat (code c + 32) else c.

(** ** Strings *)

Definition str (c : ascii) : string := String c "".

(** The truth value of a string: whether it is not empty. *)
Definition non_empty (s : string) : bool :=
  match s with "" => false | _ => true end.

(** [c in chars] for a one-character string [c]. *)
Fixpoint mem_char (c : ascii) (chars : string) : bool :=
  match chars with
  | "" => false
  | String d r => Ascii.eqb c d || mem_char c r
  end.

(** [text.count(c)] for a one-character string [c]. *)
Fixpoint count (c : ascii) (text : string) : nat :=
  match text with
  | "" => 0
  | String d r => (if Ascii.eqb d c then 1 else 0) + count c r
  end.

(** [c * n] for a one-character string [c]. *)
Fixpoint repeat_char (c : ascii) (n : nat) : string :=
  match n with
  | 0 => ""
  | S n' => String c (repeat_char c n')
  end.

(** [s[n:]] *)
Fixpoint drop (n : nat) (s : string) : string :=
  match n, s with
  | 0, _ => s
  | S n', String _ r => drop n' r
  | S _, "" => ""
  end.

(** [s[:n]] *)
Fixpoint take (n : nat) (s : string) : string :=
  match n, s with
  | 0, _ => ""
  | S n', String c r => String c (take n' r)
  | S _, "" => ""
  end.

(** [s.startswith(p)] *)
Fixpoint startswith (p s : string) : bool :=
  match p, s with
  | "", _ => true
  | String a p', String b s' => Ascii.eqb a b && startswith p' s'
  | String _ _, "" => false
  end.

(** [p in s] (substring test); [p] is never empty in this program. *)
Fixpoint contains (p s : string) : bool :=
  match s with
  | "" => startswith p ""
  | String _ r => startswith p s || contains p r
  end.

(** [s.lstrip(chars)], the set of characters given as a predicate. *)
Fixpoint lstrip (p : ascii -> bool) (s : string) : string :=
  match s with
  | "" => ""
  | String c r => if p c then lstrip p r else s
  end.

(** [s.rstrip(chars)] *)
Fixpoint rstrip (p : ascii -> bool) (s : string) : string :=
  match s with
  | "" => ""
  | String c r =>
      match rstrip p r with
      | "" => if p c then "" else str c
      | r' => String c r'
      end
  end.

(** [s.strip(chars)] *)
Definition strip (p : ascii -> bool) (s : string) : string :=
  rstrip p (lstrip p s).

(** [s.strip()] *)
Definition strip_ws (s : string) : string := strip is_space s.

(** [s[-1]], when [s] is not empty. *)
Fixpoint last_char (s : string) : option ascii :=
  match s with
  | "" => None
  | String c "" => Some c
  | String _ r => last_char r
  end.

(** [s.endswith(c)] for a one-character string [c]. *)
Definition endswith_char (c : ascii) (s : string) : bool :=
  match last_char s with
  | Some d => Ascii.eqb d c
  | None => false
  end.

(** [s.lower()] *)
Fixpoint lower (s : string) : string :=
  match s with
  | "" => ""
  | String c r => String (lower_char c) (lower r)
  end.

(** The characters of [s] that satisfy [p], in order. *)
Fixpoint filter_chars (p : ascii -> bool) (s : string) : string :=
  match s with
  | "" => ""
  | String c r => if p c then String c (filter_chars p r) else filter_chars p r
  end.

(** Every character of [s] satisfies [p]. *)
Fixpoint all_chars (p : ascii -> bool) (s : string) : bool :=
  match s with
  | "" => true
  | String c r => p c && all_chars p r
  end.

(** Length of the longest prefix of [s] whose characters satisfy [p]. *)
Fixpoint span (p : ascii -> bool) (s : string) : nat :=
  match s with
  | "" => 0
  | String c r => if p c then S (span p r) else 0
  end.

(** Index of the first character of [s] that satisfies [p]. *)
Fixpoint find_char (p : ascii -> bool) (s : string) : option nat :=
  match s with
  | "" => None
  | String c r => if p c then Some 0 else option_map S (find_char p r)
  end.

(** [''.join(parts)] *)
Fixpoint join (parts : list string) : string :=
  match parts with
  | [] => ""
  | p :: r => p ++ join r
  end.

(** ** [re.sub], [str.replace], [re.split], [str.split]

    A pattern is given by its matcher at the current position: the
    matcher sees whether the position is the start of the subject (for
    [^]) and the rest of the subject, and answers with the length of the
    leftmost-first match there and what the match is replaced by.  No
    pattern of this program matches the empty string.  The scan is
    written with a counter of matched characters still to be skipped, so
    that it is structural. *)

Definition matcher := bool -> string -> option (string * nat).

Fixpoint sub_go (m : matcher) (at_start : bool) (skip : nat) (s : string) : string :=
  match s with
  | "" => ""
  | String c r =>
      match skip with
      | S k => sub_go m false k r
      | 0 =>
          match m at_start s with
          | Some (repl, S k) => repl ++ sub_go m false k r
          | _ => String c (sub_go m false 0 r)
          end
      end
  end.

(** [re.sub(pattern, repl, s)] *)
Definition re_sub (m : matcher) (s : string) : string := sub_go m true 0 s.

(** The matcher of a literal, replaced by [new]. *)
Definition literal (old new : string) : matcher :=
  fun _ s => if startswith old s then Some (new, String.length old) else None.

(** [s.replace(old, new)], [old] not empty. *)
Definition replace (old new s : string) : string := re_sub (literal old new) s.

(** Splitting on a pattern given by the length of its match at the
    current position.  [keep] says whether the delimiter is part of the
    result: [re.split] with the whole pattern in a capturing group keeps
    it, [str.split] does not. *)
Fixpoint split_go (m : string -> option nat) (keep : bool) (skip : nat)
    (cur : string) (s : string) : list string :=
  match s with
  | "" => [cur]
  | String c r =>
      match skip with
      | S k => split_go m keep k cur r
      | 0 =>
          match m s with
          | Some (S k) =>
              cur :: ((if keep then [take (S k) s] else []) ++ split_go m keep k "" r)%list
          | _ => split_go m keep 0 (cur ++ str c) r
          end
      end
  end.

Definition re_split (m : string -> option nat) (s : string) : list string :=
  split_go m true 0 "" s.

Definition str_split (sep s : string) : list string :=
  split_go (fun t => if startswith sep t then Some (String.length sep) else None)
           false 0 "" s.

(** ** [balance_parentheses] (convert.py, lines 78-98) *)

Definition balance_parentheses (text : string) (c1 c2 : ascii) : string :=
  let open_count := count c1 text in
  let close_count := count c2 text in
  if close_count <? open_count then
    text ++ repeat_char c1 (open_count - close_count)
  else if open_count <? close_count then
    repeat_char c2 (close_count - open_count) ++ text
  else text.

(** ** [sanitize_str] (convert.py, lines 316-332) *)

(** The class [[\x09\x0A\x0D\x20-\x7E]]. *)
Definition allowed (c : ascii) : bool :=
  Ascii.eqb c TAB || Ascii.eqb c LF || Ascii.eqb c CR || in_range 32 126 c.

(** The pattern [\n +], replaced by a newline. *)
Definition newline_spaces : matcher := fun _ s =>
  match s with
  | "" => None
  | String c r =>
      if Ascii.eqb c LF then
        match span (Ascii.eqb SP) r with
        | 0 => None
        | S n => Some (str LF, S (S n))
        end
      else None
  end.

(** The pattern of one space followed by [ +]: a run of at least two
    spaces, replaced by one space. *)
Definition space_run : matcher := fun _ s =>
  match span (Ascii.eqb SP) s with
  | S (S n) => Some (" ", S (S n))
  | _ => None
  end.

Definition sanitize_str (s : string) : string :=
  (* re.sub(r'[^\x09\x0A\x0D\x20-\x7E]', '', s): every other character is removed *)
  let s := filter_chars allowed s in
  let s := replace (String CR (str LF)) (str LF) s in
  let s := replace (str CR) (str LF) s in
  let s := re_sub newline_spaces s in
  let s := re_sub space_run s in
  s.

(** ** [clean_page_number] (convert.py, lines 278-284) *)

(** The class [[0-9ab]]. *)
Definition is_label_char (c : ascii) : bool :=
  is_digit c || Ascii.eqb c "a" || Ascii.eqb c "b".

Definition clean_page_number (page_num : option string) : option string :=
  match page_num with
  | None => None
  | Some page_num =>
      let page_num := lower (lstrip (Ascii.eqb "0") page_num) in
      (* re.sub(r'[^0-9ab]', '', page_num) *)
      let page_num := filter_chars is_label_char page_num in
      Some page_num
  end.

(** The pattern [[0-9]*[ab]?] that the specification gives for a page
    label, written from its words for comparison with the code: digits,
    then at most one letter [a] or [b]. *)
Fixpoint page_label_shape (s : string) : bool :=
  match s with
  | "" => true
  | String c r =>
      if is_digit c then page_label_shape r
      else (Ascii.eqb c "a" || Ascii.eqb c "b") && negb (non_empty r)
  end.

(** ** [parse_document] (convert.py, lines 223-276)

    A page is the dictionary with the keys ['number'] and ['content'].
    The global counter [PAGE_COUNT] is carried in the state of the loop
    as the number of pages closed inside it; the function returns the
    pages only. *)

Record page : Type := { number : option string; content : list string }.

Definition not_space (c : ascii) : bool := negb (is_space c).

(** The pattern [@+\S+] at the current position: [@] is itself not a
    space, so the match is the whole run of non-space characters that
    starts with the [@], provided it has two characters at least. *)
Definition page_marker (s : string) : option nat :=
  if startswith "@" s then
    match span not_space s with
    | S (S n) => Some (S (S n))
    | _ => None
    end
  else None.

(** [re.match(r'@+(\S+)', part)] and its group 1: what follows the
    leading [@]s, or the last [@] when there is nothing else. *)
Definition page_match (part : string) : option string :=
  match page_marker part with
  | None => None
  | Some n =>
      let a := span (Ascii.eqb "@") part in
      if a <? n then Some (take (n - a) (drop a part)) else Some "@"
  end.

(** The paragraphs of one chunk of text (line 261). *)
Definition paragraphs (part : string) : list string :=
  map (fun p => strip_ws (replace "  " " " (replace (str LF) " " p)))
      (filter (fun p => non_empty (strip_ws p)) (str_split (String LF (str LF)) part)).

Record parse_state : Type :=
  { pages : list page;
    current_page : option string;
    current_content : list string;
    page_count : nat }.

Definition page_pending (st : parse_state) : bool :=
  match current_page st, current_content st with
  | None, [] => false
  | _, _ => true
  end.

Definition close_page (st : parse_state) : list page :=
  if page_pending st then
    (pages st ++ [{| number := clean_page_number (current_page st);
                     content := current_content st |}])%list
  else pages st.

(** The body of the loop over [page_splits]. *)
Definition parse_step (st : parse_state) (part : string) : parse_state :=
  match page_match part with
  | Some label =>
      {| pages := close_page st;
         current_page := Some label;
         current_content := [];
         page_count := if page_pending st then S (page_count st) else page_count st |}
  | None =>
      if non_empty (strip_ws part) then
        {| pages := pages st;
           current_page := current_page st;
           current_content := (current_content st ++ paragraphs part)%list;
           page_count := page_count st |}
      else st
  end.

(** Lines 234-269: the pages before the first-page repair. *)
Definition parse_pages (content : string) : list page :=
  let content := balance_parentheses content "(" ")" in
  let page_splits := re_split page_marker content in
  close_page (fold_left parse_step page_splits
                {| pages := []; current_page := None; current_content := [];
                   page_count := 0 |}).

Definition number_is (p : page) (label : string) : bool :=
  match number p with
  | Some n => String.eqb n label
  | None => false
  end.

Definition number_is_none (p : page) : bool :=
  match number p with None => true | Some _ => false end.

Definition set_number (p : page) (label : string) : page :=
  {| number := Some label; content := content p |}.

(** Lines 271-274. *)
Definition first_page_repair (ps : list page) : list page :=
  match ps with
  | p0 :: p1 :: p2 :: rest =>
      if number_is_none p0 && (number_is p1 "1a" || number_is p1 "1") && number_is p2 "2a"
      then set_number p0 "1a" :: set_number p1 "1b" :: p2 :: rest
      else ps
  | _ => ps
  end.

Definition parse_document (content : string) : list page :=
  first_page_repair (parse_pages content).

(** ** Markup constants *)

Definition q : string := str DQ.

Definition GAP : string :=
  Eval vm_compute in
    "<gap reason=" ++ q ++ "illegible" ++ q ++ " unit=" ++ q ++ "syllable" ++ q
    ++ " quantity=" ++ q ++ "1" ++ q ++ "/>".

Definition LANG_EN : string := Eval vm_compute in "xml:lang=" ++ q ++ "en" ++ q.

Definition NOTE_OPEN : string :=
  Eval vm_compute in "<note type=" ++ q ++ "editorial" ++ q ++ " " ++ LANG_EN ++ ">".

Definition HI_OPEN : string := Eval vm_compute in "<hi rend=" ++ q ++ "small" ++ q ++ ">".

Definition CERT_LOW : string := Eval vm_compute in " cert=" ++ q ++ "low" ++ q.

Definition UNCLEAR_OPEN : string :=
  Eval vm_compute in "<unclear reason=" ++ q ++ "illegible" ++ q ++ CERT_LOW ++ ">".

(** [xml.sax.saxutils.escape]: the ampersand first, then the two angle
    brackets. *)
Definition escape (data : string) : string :=
  let data := replace "&" "&amp;" data in
  let data := replace ">" "&gt;" data in
  let data := replace "<" "&lt;" data in
  data.

(** ** The rewrite rules of [convert_line] (convert.py, lines 164-211) *)

(** The pattern of [replace_parentheses]: an opening parenthesis, the
    group of everything that is not a closing one (newlines too, under
    DOTALL), and the closing parenthesis. *)
Definition paren_pattern : matcher := fun _ s =>
  if startswith "(" s then
    let r := drop 1 s in
    match find_char (Ascii.eqb ")") r with
    | Some n =>
        let group1 := take n r in
        Some (if non_empty group1 then HI_OPEN ++ group1 ++ "</hi>" else "", n + 2)
    | None => None
    end
  else None.

(** The pattern [\[#(.*?)\]]: the dot does not match a newline, so the lazy group
    ends at the first closing bracket unless a newline comes before. *)
Definition note_pattern : matcher := fun _ s =>
  if startswith "[#" s then
    let r := drop 2 s in
    match find_char (fun c => Ascii.eqb c "]" || Ascii.eqb c LF) r with
    | Some n =>
        if startswith "]" (drop n r)
        then Some (NOTE_OPEN ++ take n r ++ "</note>", n + 3)
        else None
    | None => None
    end
  else None.

(** [\[DD\d?\] ?([^[]+)]: the optional space is given back when nothing
    else is left for the group. *)
Definition figure_pattern : matcher := fun _ s =>
  if startswith "[DD" s then
    let r := drop 3 s in
    let d := match r with String c _ => if is_digit c then 1 else 0 | "" => 0 end in
    let r := drop d r in
    if startswith "]" r then
      let r := drop 1 r in
      let n := span (fun c => negb (Ascii.eqb c "[")) r in
      let sp := if startswith " " r && (2 <=? n) then 1 else 0 in
      match n with
      | 0 => None
      | _ => Some ("<figure><head>" ++ take (n - sp) (drop sp r) ++ "</head></figure>",
                   3 + d + 1 + n)
      end
    else None
  else None.

(** [\[([^\]]+)\]] after its opening bracket: the length of the group. *)
Definition bracket_body (r : string) : option nat :=
  match find_char (Ascii.eqb "]") r with
  | Some (S n) => Some (S n)
  | _ => None
  end.

Definition replace_variant (group1 group2 : string) : string :=
  let orig := strip_ws group1 in
  let corr := strip_ws group2 in
  let corr := lstrip (Ascii.eqb "*") corr in
  let cert_attr := if endswith_char "?" corr then CERT_LOW else "" in
  let corr := rstrip (Ascii.eqb "?") corr in
  "<choice><orig>" ++ orig ++ "</orig><corr" ++ cert_attr ++ ">" ++ corr ++ "</corr></choice>".

(** [(\S+)\s*\[([^\]]+)\]] with [\S+] of exactly [j] characters, [j]
    counted down from [j0]: a shorter word must be followed by the
    bracket at once. *)
Fixpoint variant_short (t : string) (j : nat) : option (string * nat) :=
  match j with
  | 0 => None
  | S j' =>
      let r := drop j t in
      if startswith "[" r then
        match bracket_body (drop 1 r) with
        | Some n => Some (replace_variant (take j t) (take n (drop 1 r)), j + 1 + n + 1)
        | None => variant_short t j'
        end
      else variant_short t j'
  end.

(** [(\S+)\s*\[([^\]]+)\]] at [t]: the greedy word is the whole run of
    non-space characters, then all the spaces, then the bracket; failing
    that, the word is shortened. *)
Definition variant_tail (t : string) : option (string * nat) :=
  let l := span not_space t in
  match l with
  | 0 => None
  | S l' =>
      let k := span is_space (drop l t) in
      let r := drop (l + k) t in
      let full :=
        if startswith "[" r then
          match bracket_body (drop 1 r) with
          | Some n => Some (replace_variant (take l t) (take n (drop 1 r)), l + k + 1 + n + 1)
          | None => None
          end
        else None in
      match full with
      | Some res => Some res
      | None => variant_short t l'
      end
  end.

(** [(?:^|\s+)(\S+)\s*\[([^\]]+)\]], replaced by [replace_variant]. *)
Definition variant_pattern : matcher := fun at_start s =>
  let spaced :=
    match span is_space s with
    | 0 => None
    | S w =>
        match variant_tail (drop (S w) s) with
        | Some (repl, n) => Some (repl, S w + n)
        | None => None
        end
    end in
  if at_start then
    match variant_tail s with
    | Some res => Some res
    | None => spaced
    end
  else spaced.

(** The characters of [" #!*[]()&"]. *)
Definition note_trim (c : ascii) : bool := mem_char c " #!*[]()&".

Definition replace_unclear (group1 : string) : string :=
  let text := strip_ws group1 in
  if String.eqb text "?" then GAP
  else
    let tlower := lower text in
    if contains "page" tlower || contains "text" tlower || contains "missing " tlower then
      NOTE_OPEN ++ escape (strip note_trim text) ++ "</note>"
    else
      let text := rstrip (Ascii.eqb "?") text in
      UNCLEAR_OPEN ++ text ++ "</unclear>".

(** [\[([^\]]+)\]], replaced by [replace_unclear]. *)
Definition unclear_pattern : matcher := fun _ s =>
  if startswith "[" s then
    match bracket_body (drop 1 s) with
    | Some n => Some (replace_unclear (take n (drop 1 s)), 1 + n + 1)
    | None => None
    end
  else None.

(** The characters of [" \t\n\r"]. *)
Definition line_trim (c : ascii) : bool :=
  Ascii.eqb c SP || Ascii.eqb c TAB || Ascii.eqb c LF || Ascii.eqb c CR.

(** [line_str and (line_str[-1].isalpha() or line_str[-1] == "'")] *)
Definition ends_in_letter (line_str : string) : bool :=
  match last_char line_str with
  | Some c => is_alpha c || Ascii.eqb c "'"
  | None => false
  end.

(** Lines 151-157: the paragraph trimmed, with the space that stands
    for a final tsheg; this is what [original_line_str] is bound to. *)
Definition original_line_str (line_str : string) : string :=
  let line_str := strip line_trim line_str in
  if ends_in_letter line_str then line_str ++ " " else line_str.

(** Lines 159-211: the markup written into the paragraph, before the
    text runs are transliterated. *)
Definition annotate (line_str : string) (variant_mode : Z) : string :=
  let line_str := original_line_str line_str in
  let line_str := balance_parentheses line_str "[" "]" in
  let line_str := "<lb/>" ++ line_str in
  let line_str := replace "[?]" GAP line_str in
  let line_str := re_sub paren_pattern line_str in
  let line_str := re_sub note_pattern line_str in
  let line_str := replace "[LL]" (NOTE_OPEN ++ "Landza script on page</note>") line_str in
  let line_str := replace "[DR]" (NOTE_OPEN ++ "picture on page</note>") line_str in
  let line_str := replace "{DD}" (NOTE_OPEN ++ "picture on page</note>") line_str in
  let line_str := re_sub figure_pattern line_str in
  if (variant_mode =? 1)%Z then re_sub variant_pattern line_str
  else re_sub unclear_pattern line_str.

(** ** The transliteration adapter, the splitter and [convert_line] *)

(** U+0F44 (nga), U+0F0D (shad) and U+0F0B (tsheg) in UTF-8. *)
Definition NGA : string := String "224" (String "189" (String "132" "")).
Definition SHAD : string := String "224" (String "188" (String "141" "")).
Definition TSHEG : string := String "224" (String "188" (String "139" "")).
Definition NGA_SHAD : string := Eval vm_compute in NGA ++ SHAD.
Definition NGA_TSHEG_SHAD : string := Eval vm_compute in NGA ++ TSHEG ++ SHAD.

(** [<[^>]+>] at the current position: the length of the tag. *)
Definition tag_pattern (s : string) : option nat :=
  if startswith "<" s then
    match find_char (Ascii.eqb ">") (drop 1 s) with
    | Some (S n) => Some (S n + 2)
    | _ => None
    end
  else None.

Definition is_tag (part : string) : bool :=
  match tag_pattern part with Some _ => true | None => false end.

Definition should_skip_tag (tag : string) : bool := contains LANG_EN tag.

(** [part[-1] in [',', '`', '`', ';']] *)
Definition ends_in_shad (part : string) : bool :=
  match last_char part with
  | Some c => Ascii.eqb c "," || Ascii.eqb c "`" || Ascii.eqb c ";"
  | None => false
  end.

(** The variables of the loop of [convert_text_components]. *)
Record splitter : Type :=
  { result : list string; skip : bool; last_is_shad : bool }.

Section Adapter.

(** [ACIP.ACIPtoEWTS] and [pyewts.pyewts().toUnicode]. *)
Variable ACIPtoEWTS : string -> string.
Variable toUnicode : string -> string.

(** Lines 100-108. *)
Definition ACIP_transform (s : string) (last_is_shad : bool) : string :=
  let s := ACIPtoEWTS s in
  let startswithspace := startswith " " s in
  let s := toUnicode s in
  let s := replace NGA_SHAD NGA_TSHEG_SHAD s in
  if startswithspace then (if negb last_is_shad then TSHEG else " ") ++ s else s.

(** The body of the loop at lines 122-132. *)
Definition convert_part (st : splitter) (part : string) : splitter :=
  if is_tag part then
    {| result := (result st ++ [part])%list;
       skip := should_skip_tag part;
       last_is_shad := last_is_shad st |}
  else
    let r := if skip st then part else ACIP_transform part (last_is_shad st) in
    let r := if last_is_shad st then " " ++ r else r in
    let shad := negb (skip st) && non_empty part && ends_in_shad part in
    let r := escape r in
    {| result := (result st ++ [r])%list; skip := skip st; last_is_shad := shad |}.

Definition splitter_init : splitter :=
  {| result := []; skip := false; last_is_shad := false |}.

(** Lines 110-134. *)
Definition convert_text_components (text : string) : string :=
  let parts := re_split tag_pattern text in
  join (result (fold_left convert_part parts splitter_init)).

(** [is_valid_xml] (lines 37-47): whether the parser accepts the
    string; the exception of a rejected one is caught there. *)
Variable is_valid_xml : string -> bool.

(** The candidate fragment: line 213. *)
Definition candidate (line_str : string) (variant_mode : Z) : string :=
  convert_text_components (annotate line_str variant_mode).

(** Lines 136-221. *)
Definition convert_line (line_str : string) (variant_mode : Z) : string :=
  let original := original_line_str line_str in
  let line_str := candidate line_str variant_mode in
  if negb (is_valid_xml ("<p>" ++ line_str ++ "</p>")) then
    let line_str := strip_ws (ACIP_transform original false) in
    let line_str := escape line_str in
    line_str
  else strip_ws line_str.

(** Lines 394-407 of [convert_file]: the lines written for the pages. *)
Definition is_blank (p : page) : bool :=
  match content p with
  | [c] => contains "MISSING PAGE" c || contains "BLANK PAGE" c || contains "[BP]" c
  | _ => false
  end.

Definition pnum_attribute (p : page) : string :=
  match number p with
  | None | Some "" => ""
  | Some n => " n=" ++ q ++ n ++ q
  end.

Definition render_page (variant_mode : Z) (p : page) : list string :=
  if is_blank p then ["<pb" ++ pnum_attribute p ++ " rend=" ++ q ++ "blank" ++ q ++ "/>"]
  else
    ("<pb" ++ pnum_attribute p ++ "/>")
      :: filter non_empty (map (fun para => convert_line para variant_mode) (content p)).

Definition render_pages (variant_mode : Z) (ps : list page) : list string :=
  flat_map (render_page variant_mode) ps.

End Adapter.

(** ** Dictionaries

    A [dict] with string keys, as the list of its items in insertion
    order: setting a key that is there replaces its value in place,
    also when a literal writes a key twice. *)

Definition dict (V : Type) : Type := list (string * V).

Fixpoint dict_get {V : Type} (dic : dict V) (key : string) : option V :=
  match dic with
  | [] => None
  | (k, v) :: rest => if String.eqb k key then Some v else dict_get rest key
  end.

Fixpoint dict_set {V : Type} (dic : dict V) (key : string) (value : V) : dict V :=
  match dic with
  | [] => [(key, value)]
  | (k, v) :: rest =>
      if String.eqb k key then (k, value) :: rest
      else (k, v) :: dict_set rest key value
  end.

Definition dict_literal {V : Type} (items : list (string * V)) : dict V :=
  fold_left (fun dic item => dict_set dic (fst item) (snd item)) items [].

(** [enumerate(l)] *)
Definition enumerate {A : Type} (l : list A) : list (nat * A) :=
  combine (seq 0 (List.length l)) l.

(** ["%04d" % n] *)
Definition format_04d (n : nat) : string :=
  let digits := NilEmpty.string_of_uint (Nat.to_uint n) in
  repeat_char "0" (4 - String.length digits) ++ digits.

(** ** The tables of convert.py (lines 286-314 and 533-651) *)

Definition PROPER_EMENDATIONS : list string :=
  ["S00202E"; "S00057M"; "S00034N"; "S00021N"; "S00020N"; "S00019N"; "S00017N"; "S00016N"; "S00013N"; "SP05939N"; "ST00024N"; "SL05414N"].

Definition IN_ENGLISH : list string :=
  ["S00200A"; "S00199A"; "R0050A"; "S00069F"; "S00034E"; "S00041N"; "S00038F"; "S12361E"; "S00071A"; "S00205A"; "S00036F"; "S00039F"].

Definition NOT_TRANSCRIPTS : list string :=
  ["S00200A"; "S00199A"; "R0050A"; "S00069F"; "S00034E"; "S00041N"; "S00038F"; "S00071A"; "S00205A"; "S12361E"; "S00034F"; "S00036F"; "S00039F"].

Definition PREDEFINED_MW_items : list (string * string) :=
  [("S00200A", "MW1AL4");
   ("S00069F", "MW1AL1");
   ("S00034E", "MW1AL5");
   ("S00041N", "MW1AL2");
   ("S00205A", "MW1AL3");
   ("D04849", "MW1ER25");
   ("D79973", "MW19837");
   ("D50934", "MW29329");
   ("S25126", "MW12171");
   ("SP06954", "MW20482");
   ("D61732", "MW8LS26206")].

Definition PREDEFINED_MW : dict string := dict_literal PREDEFINED_MW_items.

(** The literal of [GROUPS], which writes the key [D04849] twice. *)
Definition GROUPS_items : list (string * list (list string)) :=
  [
   ("D45233",
     [["SB25006-1"];
      ["SB25006-2"]]);
   ("D61732",
     [["S00005N"; "S00038F"; "S00006N"; "S00007N"; "S00021N"; "S00008N"]]);
   ("D85829",
     [["S00060M"; "S00061M"; "S00062M"; "S00063M"]]);
   ("D50960",
     [["S05412TL-1"; "S05412TL-2"]]);
   ("D55579",
     [["S00982E1"; "S00982E2"; "S00982E3"; "S00982E4"]]);
   ("D94929",
     [["S00995E"; "S00996E"; "S00997E"; "S00998E"]]);
   ("D42036",
     [["S00967E"; "S00968E"; "S00969E"; "S00970E"; "S00971E"; "S00972E"; "S00973E"; "S00974E"]]);
   ("D35909",
     [["S00195A1"; "S00195M2"; "S00195M3"; "S00195M4"; "S00195M5"; "S00195M6"]]);
   ("D17118",
     [["S00001M1"; "SE00001M2"; "SL00001N2"; "SE00001M3"; "SL00001N3"; "S00001I4"; "S00001A5"; "S00001A6"; "S00001A7"; "S00001A8"]]);
   ("D23629",
     [["SE00009M1"; "SL00009N1"; "S00009M2"; "S00009M3"; "S00009M4"; "S00009M5"; "S00009M6"]]);
   ("D51009",
     [["S06814-1"];
      ["S06814-2"]]);
   ("D57606",
     [["S00044M1"; "S00044M2"; "S00044M3"; "S00044M4"; "S00044M5"; "S00044I6"; "S00044M7"; "S00044M8"]]);
   ("D88299",
     [["SE00070I1"; "SE0070M2"]]);
   ("D88300",
     [["SL00070N1"; "SL00070I2"]]);
   ("D04848",
     [["SE00023M1"; "SE00023M2"]]);
   ("D04849",
     [["SL00023N1"; "SL00023N2"; "S00023N3"; "S00023N4"]]);
   ("D79973",
     [["R00003E1"];
      ["R00003E2"];
      ["R00003E3"]]);
   ("D50934",
     [["R0002K"; "R0002KH"; "R0002G"; "R0002NG"; "R0002C"; "R0002CH"; "R0002J"; "R0002NY"];
      ["R0002T"; "R0002TH"; "R0002D"; "R0002N"; "R0002P"; "R0002PH"; "R0002B"; "R0002M"; "R0002TZ"; "R0002TS"];
      ["R0002DZ"; "R0002W"; "R0002ZH"; "R0002Z"; "R0002'"; "R0002Y"; "R0002R"; "R0002L"; "R0002SH"; "R0002S"; "R0002H"; "R0002A"; "R0002VB"; "R0002YRS"; "R0002PIC"]]);
   ("D84081",
     [["S00041N"; "S00042N"; "S00040N"; "S00026N"]]);
   ("D76496",
     [["S00036F"; "S00037N"; "S00033N"; "S00020N"]]);
   ("D04849",
     [["S00050M"; "SL00023N1"; "SE00023M1"; "SL00023N2"; "SE00023M2"];
      ["S00039F"; "S00029N"; "S00030N"; "S00031N"; "S00032N"; "S00023N3"; "S00023N4"]]);
   ("D11540",
     [["S19100E1"];
      ["S19100E2"];
      ["S19100E3"];
      ["S19100E4"];
      ["S19100E5"];
      ["S19100E6"];
      ["S19100E7"];
      ["S19100E8"]]);
   ("D59818",
     [["S19088E"];
      ["S19089"];
      ["S19090"];
      ["S19092E1"];
      ["S19092E2"];
      ["S19092E3"];
      ["S19092E4"];
      ["S19092E5"];
      ["S19097E"]]);
   ("D75239",
     [["S19086E"; "S19087E"]]);
   ("D75240",
     [["S00839D1"; "S00839E2"]]);
   ("D02161",
     [["S05587-1"];
      ["S05587-2"];
      ["S05587-3"];
      ["S05587-4"]]);
   ("D43855",
     [["SL0059I1"];
      ["SL0059E2"]]);
   ("D08589",
     [["S06850I1A"; "S06850I1B"];
      ["SE06850A1"];
      ["SL06850I2"]]);
   ("D53759",
     [["SN06838I1"; "SN06838I2"]]);
   ("D75904",
     [["S00302M"; "S00303M"]]);
   ("D51010",
     [["S06814I2"];
      ["S06814I5"];
      ["S06814M6"];
      ["S06814I8"];
      ["S06814M9"];
      ["S06814M10"];
      ["S06814I1A"];
      ["S06814I11"];
      ["S06814I3"];
      ["S06814I4"]]);
   ("D05632",
     [["S00992E"; "S0993E"]]);
   ("D69930",
     [["SN12135E"; "SD12135E"; "S12222E"; "S12223E"]]);
   ("D95409",
     [["S05877M"; "S12173E"]]);
   ("D41251",
     [["S05588-1"; "S05588-2"; "S05588-3"]]);
   ("D41252",
     [["S05589-1"; "S05589-2"; "S05589-3"]]);
   ("D37208",
     [["S06954E1"; "S06954I2"]]);
   ("D59861",
     [["S5275M85-1"; "S5275M85-2"]])
  ].

Definition GROUPS : dict (list (list string)) := dict_literal GROUPS_items.

(** ** [convert_all] (convert.py, lines 663-708): the names of a text *)

Record volume_info : Type :=
  { d : string; vol_i : nat; txt_i : nat; nbvols : nat }.

(** Lines 664-669. *)
Definition rev_volume : dict volume_info :=
  fold_left
    (fun rev group =>
       let dnumber := fst group in
       let vollist := snd group in
       let nb_vols := List.length vollist in
       fold_left
         (fun rev vol =>
            fold_left
              (fun rev txt =>
                 dict_set rev (snd txt)
                   {| d := dnumber; vol_i := fst vol + 1; txt_i := fst txt + 1;
                      nbvols := nb_vols |})
              (enumerate (snd vol)) rev)
         (enumerate vollist) rev)
    GROUPS [].

Record lnames : Type :=
  { ie_lname : string; mw_lname : string; ve_lname : string; ut_lname : string }.

(** The characters of [" ."]. *)
Definition base_trim (c : ascii) : bool := mem_char c " .".

Definition predefined_mw (base default_id : string) : string :=
  match dict_get PREDEFINED_MW base with
  | Some mw => mw
  | None => "MW" ++ default_id
  end.

(** The volume name of a text of a group (lines 689-692). *)
Definition group_ve_lname (info : volume_info) : string :=
  let default_id := "1AL" ++ d info in
  if 1 <? nbvols info then "VE" ++ default_id ++ "_" ++ format_04d (vol_i info)
  else "VE" ++ default_id.

(** Lines 672-693, from the name of the file without its extension. *)
Definition convert_all_lnames (base : string) : lnames :=
  let base := strip base_trim base in
  let default_id := "1AL" ++ base in
  match dict_get rev_volume base with
  | None =>
      {| ie_lname := "IE" ++ default_id;
         mw_lname := predefined_mw base default_id;
         ve_lname := "VE" ++ default_id;
         ut_lname := "UT" ++ default_id ++ "_0001" |}
  | Some rev_volume_info =>
      let default_id := "1AL" ++ d rev_volume_info in
      let ve_lname := group_ve_lname rev_volume_info in
      {| ie_lname := "IE" ++ default_id;
         mw_lname := predefined_mw base default_id;
         ve_lname := ve_lname;
         ut_lname := "UT" ++ drop 2 ve_lname ++ "_" ++ format_04d (txt_i rev_volume_info) |}
  end.

(** Line 694: where the converted text is written. *)
Definition path_to_output_file (names : lnames) : string :=
  "texts_converted/" ++ ie_lname names ++ "/archive/" ++ ve_lname names
  ++ "/" ++ ut_lname names ++ ".xml".

(** [s in l] for a list of strings. *)
Definition mem_string (s : string) (l : list string) : bool :=
  existsb (String.eqb s) l.

(** Lines 343-344 of [convert_file]: the policy and the language. *)
Definition variant_mode_of (basename : string) : Z :=
  if mem_string basename PROPER_EMENDATIONS then 1%Z else 2%Z.

Definition lang_of (basename : string) : string :=
  if mem_string basename IN_ENGLISH then "en" else "bo".

(** ** [import_row] (import_cat.py, lines 436-451): the volumes of a row

    The table [GROUPS] of import_cat.py (lines 123-166) is, character
    for character, that of convert.py. *)
Definition import_row_vols (row_id : string) : list string :=
  let default_id := "1AL" ++ row_id in
  match dict_get GROUPS row_id with
  | Some group_info =>
      let nb_vols := List.length group_info in
      if 1 <? nb_vols then
        map (fun i => "VE" ++ default_id ++ "_" ++ format_04d (i + 1)) (seq 0 nb_vols)
      else ["VE" ++ default_id]
  | None => ["VE" ++ default_id]
  end.

(** ** Stand-ins for the external libraries

    Used only to run the converter on concrete paragraphs in the
    examples: a transliteration that leaves the text as it is, one that
    changes it visibly, and the verdict of the XML parser on the one
    fragment of the example. *)

Definition untransliterated (s : string) : string := s.

(** A transliteration that writes every small letter as a capital: it
    shows which text runs went through the adapter. *)
Definition capital (c : ascii) : ascii :=
  if in_range 97 122 c then ascii_of_nat (code c - 32) else c.

Fixpoint capitals (s : string) : string :=
  match s with
  | "" => ""
  | String c r => String (capital c) (capitals r)
  end.
Definition parser_accepts (xml : string) : bool := true.
Definition parser_rejects (xml : string) : bool := false.

(** ** Predicates of the statements and proofs *)

(** A pattern that matches nowhere in [s]. *)
Definition matches_nowhere (m : matcher) (s : string) : Prop :=
  forall n b, m b (drop n s) = None.

Definition starts_sp (s : string) : bool := startswith " " s.

(** No two spaces in a row. *)
Fixpoint no_double_space (s : string) : bool :=
  match s with
  | "" => true
  | String a r => negb (Ascii.eqb a SP && starts_sp r) && no_double_space r
  end.

(** No space right after a newline. *)
Fixpoint no_space_after_newline (s : string) : bool :=
  match s with
  | "" => true
  | String a r => negb (Ascii.eqb a LF && starts_sp r) && no_space_after_newline r
  end.

Definition not_cr (c : ascii) : bool := negb (Ascii.eqb c CR).

(** The condition of the repair, as the specification words it. *)
Definition first_marker_missing (ps : list page) : Prop :=
  exists p0 p1 p2 rest,
    ps = p0 :: p1 :: p2 :: rest /\
    number p0 = None /\
    (number p1 = Some "1a" \/ number p1 = Some "1") /\
    number p2 = Some "2a".

(** The state of the splitter with an empty output. *)
Definition restart (st : splitter) : splitter :=
  {| result := []; skip := skip st; last_is_shad := last_is_shad st |}.

(** A paragraph that [convert_line] does not trim to nothing. *)
Definition solid (para : string) : Prop :=
  para <> "" /\ strip line_trim para = para.

Definition solid_pages (ps : list page) : Prop :=
  forall pg para, In pg ps -> In para (content pg) -> solid para.

Definition solid_state (st : parse_state) : Prop :=
  solid_pages (pages st) /\ forall para, In para (current_content st) -> solid para.

Definition is_not (c : ascii) (x : ascii) : bool := negb (Ascii.eqb x c).

(** Text at the even places and tags at the odd ones, with a text
    token last. *)
Definition text_and_tags (parts : list string) : Prop :=
  Nat.odd (List.length parts) = true /\
  forall i part, nth_error parts i = Some part -> is_tag part = Nat.odd i.

(** The first page only may lack a number. *)
Definition numbered_after_first (ps : list page) : Prop :=
  forall pg, In pg (tl ps) -> number pg <> None.

Definition labels_clean (ps : list page) : Prop :=
  forall pg label, In pg ps -> number pg = Some label ->
                   all_chars is_label_char label = true.

Definition numbering_state (st : parse_state) : Prop :=
  (current_page st = None -> pages st = []) /\
  numbered_after_first (pages st) /\ labels_clean (pages st).

(** None of the characters that open an annotation or a tag, and no
    closing square bracket. *)
Definition plain (c : ascii) : bool := negb (mem_char c "([]{<").

(** None of the characters that the rewrite rules start with. *)
Definition unmarked (c : ascii) : bool := negb (mem_char c "([{").

(** A pattern that can only start at one of the three characters. *)
Definition starts_marked (m : matcher) : Prop :=
  forall b c r, unmarked c = true -> m b (String c r) = None.

Definition same_name (a : option string) (b : string) : bool :=
  match a with
  | Some x => String.eqb x b
  | None => false
  end.

(** What the table gives for one text of a group: its volume is the
    one that [import_row] declares at that place for the group. *)
Definition volume_declared (info : volume_info) : bool :=
  same_name (nth_error (import_row_vols (d info)) (vol_i info - 1)) (group_ve_lname info)
  && (List.length (import_row_vols (d info)) =? nbvols info).

(** The name of the output file of a text of a group. *)
Definition group_ut_lname (info : volume_info) : string :=
  "UT" ++ drop 2 (group_ve_lname info) ++ "_" ++ format_04d (txt_i info).

Definition no_clash_in_groups : bool :=
  forallb
    (fun a =>
       forallb
         (fun b =>
            implb (String.eqb (group_ut_lname (snd a)) (group_ut_lname (snd b)))
                  (String.eqb (fst a) (fst b)))
         rev_volume)
    rev_volume.

(** * Properties *)

#[local] Arguments Ascii.eqb : simpl never.

(** ** Strings *)

Lemma append_empty_r (s : string) : s ++ "" = s.
Proof. induction s as [|c r IH]; simpl; [reflexivity | now rewrite IH]. Qed.

Lemma append_assoc (a b c : string) : (a ++ b) ++ c = a ++ (b ++ c).
Proof. induction a as [|x r IH]; simpl; [reflexivity | now rewrite IH]. Qed.

Lemma count_append (c : ascii) (a b : string) :
  count c (a ++ b) = count c a + count c b.
Proof. induction a as [|x r IH]; simpl; [reflexivity | rewrite IH; lia]. Qed.

Lemma count_repeat_same (c : ascii) (n : nat) : count c (repeat_char c n) = n.
Proof.
  induction n as [|n IH]; simpl; [reflexivity|].
  now rewrite Ascii.eqb_refl, IH.
Qed.

Lemma count_repeat_other (c d : ascii) (n : nat) :
  c <> d -> count c (repeat_char d n) = 0.
Proof.
  intros Hcd. induction n as [|n IH]; simpl; [reflexivity|].
  destruct (Ascii.eqb_spec d c) as [E|_]; [congruence | exact IH].
Qed.

Lemma drop_empty (n : nat) : drop n "" = "".
Proof. now destruct n. Qed.

Lemma drop_drop (n k : nat) (s : string) : drop n (drop k s) = drop (k + n) s.
Proof.
  revert s; induction k as [|k IH]; intros s; simpl; [reflexivity|].
  destruct s as [|c r]; [apply drop_empty | apply IH].
Qed.

Lemma length_drop (n : nat) (s : string) :
  String.length (drop n s) = String.length s - n.
Proof.
  revert s; induction n as [|n IH]; intros [|c r]; simpl; try lia.
  apply IH.
Qed.

Lemma all_chars_append (p : ascii -> bool) (a b : string) :
  all_chars p (a ++ b) = all_chars p a && all_chars p b.
Proof.
  induction a as [|c r IH]; simpl; [reflexivity|].
  now rewrite IH, andb_assoc.
Qed.

Lemma all_chars_drop (p : ascii -> bool) (n : nat) (s : string) :
  all_chars p s = true -> all_chars p (drop n s) = true.
Proof.
  revert s; induction n as [|n IH]; intros [|c r] H; simpl in *; auto.
  apply andb_true_iff in H as [_ H]. now apply IH.
Qed.

Lemma filter_chars_all (p : ascii -> bool) (s : string) :
  all_chars p (filter_chars p s) = true.
Proof.
  induction s as [|c r IH]; simpl; [reflexivity|].
  destruct (p c) eqn:E; simpl; [now rewrite E|exact IH].
Qed.

Lemma filter_chars_id (p : ascii -> bool) (s : string) :
  all_chars p s = true -> filter_chars p s = s.
Proof.
  induction s as [|c r IH]; simpl; [reflexivity|].
  intros H. apply andb_true_iff in H as [Hc Hr].
  now rewrite Hc, IH.
Qed.

(** ** The scan of [re.sub] *)

(** Skipping [k] matched characters is dropping them. *)
Lemma sub_go_skip (m : matcher) (k : nat) (s : string) :
  sub_go m false k s = sub_go m false 0 (drop k s).
Proof.
  revert s; induction k as [|k IH]; intros s; [reflexivity|].
  destruct s as [|c r]; simpl; [reflexivity | apply IH].
Qed.

(** The scan, one match at a time. *)
Lemma sub_go_step (m : matcher) (b : bool) (c : ascii) (r : string) :
  sub_go m b 0 (String c r) =
  match m b (String c r) with
  | Some (repl, S k) => repl ++ sub_go m false 0 (drop k r)
  | _ => String c (sub_go m false 0 r)
  end.
Proof.
  simpl. destruct (m b (String c r)) as [[repl [|k]]|]; try reflexivity.
  now rewrite sub_go_skip.
Qed.

Lemma matches_nowhere_tail (m : matcher) (c : ascii) (r : string) :
  matches_nowhere m (String c r) -> matches_nowhere m r.
Proof. intros H n b. exact (H (S n) b). Qed.

Lemma sub_go_fixed (m : matcher) (s : string) (b : bool) :
  matches_nowhere m s -> sub_go m b 0 s = s.
Proof.
  revert b; induction s as [|c r IH]; intros b H; [reflexivity|].
  pose proof (H 0 b) as H0. simpl in H0.
  rewrite sub_go_step, H0. f_equal.
  apply IH. now apply matches_nowhere_tail in H.
Qed.

(** The characters of the result come from the subject or from the
    replacements. *)
Lemma sub_go_all_chars (p : ascii -> bool) (m : matcher) :
  (forall b t repl n, m b t = Some (repl, n) -> all_chars p repl = true) ->
  forall s b k, all_chars p s = true -> all_chars p (sub_go m b k s) = true.
Proof.
  intros Hm. induction s as [|c r IH]; intros b k H; [reflexivity|].
  simpl in H. apply andb_true_iff in H as [Hc Hr].
  destruct k as [|k]; simpl; [|now apply IH].
  destruct (m b (String c r)) as [[repl [|j]]|] eqn:E.
  - simpl. now rewrite Hc, IH.
  - rewrite all_chars_append, (Hm _ _ _ _ E), IH; auto.
  - simpl. now rewrite Hc, IH.
Qed.

(** ** [balance_parentheses] *)

Lemma balance_more_open (s : string) (c1 c2 : ascii) :
  count c2 s < count c1 s ->
  balance_parentheses s c1 c2 = s ++ repeat_char c1 (count c1 s - count c2 s).
Proof.
  intros H. unfold balance_parentheses.
  apply Nat.ltb_lt in H. now rewrite H.
Qed.

Lemma balance_more_closed (s : string) (c1 c2 : ascii) :
  count c1 s < count c2 s ->
  balance_parentheses s c1 c2 = repeat_char c2 (count c2 s - count c1 s) ++ s.
Proof.
  intros H. unfold balance_parentheses.
  destruct (count c2 s <? count c1 s) eqn:E; [apply Nat.ltb_lt in E; lia|].
  apply Nat.ltb_lt in H. now rewrite H.
Qed.

Lemma balance_equal (s : string) (c1 c2 : ascii) :
  count c1 s = count c2 s -> balance_parentheses s c1 c2 = s.
Proof.
  intros H. unfold balance_parentheses. rewrite H.
  now rewrite Nat.ltb_irrefl.
Qed.

(** Whichever character is in excess, the repair adds that many more of
    it: the excess doubles. *)
Lemma balance_doubles_excess (s : string) (c1 c2 : ascii) :
  c1 <> c2 ->
  let r := balance_parentheses s c1 c2 in
  count c1 r - count c2 r = 2 * (count c1 s - count c2 s) /\
  count c2 r - count c1 r = 2 * (count c2 s - count c1 s).
Proof.
  intros Hne r. subst r.
  destruct (Nat.lt_trichotomy (count c1 s) (count c2 s)) as [H|[H|H]].
  - rewrite balance_more_closed by exact H.
    rewrite !count_append, count_repeat_same, count_repeat_other by exact Hne. lia.
  - rewrite balance_equal by exact H. lia.
  - rewrite balance_more_open by exact H.
    rewrite !count_append, count_repeat_same, count_repeat_other by congruence. lia.
Qed.

(** C2, on the code: with one opening parenthesis too many the repair
    appends an opening parenthesis, not the missing closing one, and
    with one closing parenthesis too many it prepends a closing one; the
    results are not balanced. *)
Theorem balance_parentheses_adds_the_excess_character :
  balance_parentheses "a(b" "(" ")" = "a(b(" /\
  count "(" "a(b(" = 2 /\ count ")" "a(b(" = 0 /\
  balance_parentheses "a)b" "(" ")" = ")a)b" /\
  count "(" ")a)b" = 0 /\ count ")" ")a)b" = 2.
Proof. repeat split; reflexivity. Qed.

(** C3, on the code: a second application changes the result of the
    first, so the repair is not idempotent on an unbalanced string. *)
Theorem balance_parentheses_twice_differs :
  balance_parentheses "(" "(" ")" = "((" /\
  balance_parentheses (balance_parentheses "(" "(" ")") "(" ")" = "((((".
Proof. split; reflexivity. Qed.

(** ** [sanitize_str] *)

Lemma starts_sp_span (s : string) : starts_sp s = negb (span (Ascii.eqb SP) s =? 0).
Proof.
  destruct s as [|c r]; [reflexivity|]. unfold starts_sp. simpl.
  fold SP. rewrite andb_true_r. now destruct (Ascii.eqb SP c).
Qed.

Lemma starts_sp_drop_span (s : string) :
  starts_sp (drop (span (Ascii.eqb SP) s) s) = false.
Proof.
  induction s as [|c r IH]; [reflexivity|]. simpl.
  destruct (Ascii.eqb SP c) eqn:E; simpl; [exact IH|].
  unfold starts_sp. simpl. fold SP. now rewrite E.
Qed.

Lemma no_double_space_drop (n : nat) (s : string) :
  no_double_space s = true -> no_double_space (drop n s) = true.
Proof.
  revert s; induction n as [|n IH]; intros [|c r] H; simpl in *; auto.
  apply andb_true_iff in H as [_ H]. now apply IH.
Qed.

Lemma no_space_after_newline_drop (n : nat) (s : string) :
  no_space_after_newline s = true -> no_space_after_newline (drop n s) = true.
Proof.
  revert s; induction n as [|n IH]; intros [|c r] H; simpl in *; auto.
  apply andb_true_iff in H as [_ H]. now apply IH.
Qed.

Lemma starts_sp_cons (c : ascii) (r : string) : starts_sp (String c r) = Ascii.eqb SP c.
Proof. unfold starts_sp. simpl. fold SP. apply andb_true_r. Qed.

Lemma span_sp_cons (c : ascii) (r : string) :
  span (Ascii.eqb SP) (String c r) = if Ascii.eqb SP c then S (span (Ascii.eqb SP) r) else 0.
Proof. reflexivity. Qed.

Lemma span_sp_zero (r : string) : starts_sp r = false -> span (Ascii.eqb SP) r = 0.
Proof.
  rewrite starts_sp_span. destruct (span (Ascii.eqb SP) r); [reflexivity | discriminate].
Qed.

Lemma span_sp_pos (r : string) :
  starts_sp r = true -> exists j, span (Ascii.eqb SP) r = S j.
Proof.
  rewrite starts_sp_span. destruct (span (Ascii.eqb SP) r) as [|j]; [discriminate | now exists j].
Qed.

Lemma space_run_cons (b : bool) (c : ascii) (r : string) :
  space_run b (String c r) =
  if Ascii.eqb SP c && starts_sp r
  then Some (" ", S (span (Ascii.eqb SP) r)) else None.
Proof.
  unfold space_run. rewrite span_sp_cons, starts_sp_span.
  destruct (Ascii.eqb SP c); [|reflexivity].
  now destruct (span (Ascii.eqb SP) r).
Qed.

Lemma newline_spaces_cons (b : bool) (c : ascii) (r : string) :
  newline_spaces b (String c r) =
  if Ascii.eqb c LF && starts_sp r
  then Some (str LF, S (span (Ascii.eqb SP) r)) else None.
Proof.
  unfold newline_spaces. rewrite starts_sp_span.
  destruct (Ascii.eqb c LF); [|reflexivity].
  now destruct (span (Ascii.eqb SP) r).
Qed.

Lemma no_double_space_cons (c : ascii) (r : string) :
  no_double_space (String c r) =
  negb (Ascii.eqb SP c && starts_sp r) && no_double_space r.
Proof. simpl. now rewrite (Ascii.eqb_sym c SP). Qed.

Lemma no_space_after_newline_cons (c : ascii) (r : string) :
  no_space_after_newline (String c r) =
  negb (Ascii.eqb c LF && starts_sp r) && no_space_after_newline r.
Proof. reflexivity. Qed.

Lemma sp_is_not_lf : Ascii.eqb SP LF = false.
Proof. reflexivity. Qed.

(** What collapsing the runs of spaces leaves. *)
Lemma space_run_result (n : nat) :
  forall s b, String.length s <= n ->
    starts_sp (sub_go space_run b 0 s) = starts_sp s /\
    no_double_space (sub_go space_run b 0 s) = true /\
    (no_space_after_newline s = true ->
     no_space_after_newline (sub_go space_run b 0 s) = true).
Proof.
  induction n as [|n IH]; intros [|c r] b Hlen; simpl in Hlen; try lia;
    try (repeat split; reflexivity).
  rewrite sub_go_step, space_run_cons.
  destruct (Ascii.eqb SP c && starts_sp r) eqn:E.
  - (* two spaces at least: the run is replaced by one space *)
    apply andb_true_iff in E as [Ec Er].
    apply Ascii.eqb_eq in Ec. subst c.
    destruct (IH (drop (span (Ascii.eqb SP) r) r) false) as (Hs & Hd & Hn).
    { rewrite length_drop. lia. }
    rewrite starts_sp_drop_span in Hs.
    change (" " ++ ?x) with (String SP x).
    rewrite no_double_space_cons, !no_space_after_newline_cons, !starts_sp_cons.
    rewrite Hs, Hd, sp_is_not_lf, andb_false_r. simpl.
    repeat split. intros H. apply Hn. now apply no_space_after_newline_drop.
  - destruct (IH r false) as (Hs & Hd & Hn); [lia|].
    rewrite no_double_space_cons, !no_space_after_newline_cons, !starts_sp_cons.
    rewrite Hs, Hd, E. simpl.
    repeat split. intros H. apply andb_true_iff in H as [H1 H2].
    rewrite H1. now apply Hn.
Qed.

(** What removing the spaces after the newlines leaves. *)
Lemma newline_spaces_result (n : nat) :
  forall s b, String.length s <= n ->
    starts_sp (sub_go newline_spaces b 0 s) = starts_sp s /\
    no_space_after_newline (sub_go newline_spaces b 0 s) = true.
Proof.
  induction n as [|n IH]; intros [|c r] b Hlen; simpl in Hlen; try lia;
    try (split; reflexivity).
  rewrite sub_go_step, newline_spaces_cons.
  destruct (Ascii.eqb c LF && starts_sp r) eqn:E.
  - apply andb_true_iff in E as [Ec Er].
    apply Ascii.eqb_eq in Ec. subst c.
    destruct (IH (drop (span (Ascii.eqb SP) r) r) false) as (Hs & Hn).
    { rewrite length_drop. lia. }
    rewrite starts_sp_drop_span in Hs.
    change (str LF ++ ?x) with (String LF x).
    rewrite no_space_after_newline_cons, !starts_sp_cons.
    rewrite Hs, Hn, andb_false_r. now split.
  - destruct (IH r false) as (Hs & Hn); [lia|].
    rewrite no_space_after_newline_cons, !starts_sp_cons.
    rewrite Hs, Hn, E. now split.
Qed.

Lemma space_run_nowhere (s : string) :
  no_double_space s = true -> matches_nowhere space_run s.
Proof.
  intros H n b. apply (no_double_space_drop n) in H.
  destruct (drop n s) as [|c r]; [reflexivity|].
  rewrite no_double_space_cons in H. apply andb_true_iff in H as [H _].
  apply negb_true_iff in H. now rewrite space_run_cons, H.
Qed.

Lemma newline_spaces_nowhere (s : string) :
  no_space_after_newline s = true -> matches_nowhere newline_spaces s.
Proof.
  intros H n b. apply (no_space_after_newline_drop n) in H.
  destruct (drop n s) as [|c r]; [reflexivity|].
  rewrite no_space_after_newline_cons in H. apply andb_true_iff in H as [H _].
  apply negb_true_iff in H. now rewrite newline_spaces_cons, H.
Qed.

Lemma literal_cr_nowhere (tail new s : string) :
  all_chars not_cr s = true -> matches_nowhere (literal (String CR tail) new) s.
Proof.
  intros H n b. apply (all_chars_drop _ n) in H.
  destruct (drop n s) as [|c r]; [reflexivity|].
  simpl in H. apply andb_true_iff in H as [H _].
  unfold literal. simpl.
  unfold not_cr in H. apply negb_true_iff in H.
  now rewrite (Ascii.eqb_sym CR c), H.
Qed.

Lemma replace_cr_result (s : string) (b : bool) :
  all_chars not_cr (sub_go (literal (str CR) (str LF)) b 0 s) = true.
Proof.
  revert b; induction s as [|c r IH]; intros b; [reflexivity|].
  rewrite sub_go_step. unfold literal at 1. simpl startswith. simpl String.length.
  rewrite andb_true_r.
  destruct (Ascii.eqb CR c) eqn:Ec.
  - simpl. apply IH.
  - simpl. unfold not_cr at 1. now rewrite (Ascii.eqb_sym c CR), Ec, IH.
Qed.

Ltac replacement_chars :=
  let b := fresh in let u := fresh in let repl := fresh in let n := fresh in
  let E := fresh in
  intros b u repl n; unfold literal, space_run, newline_spaces;
  repeat match goal with
         | |- context [match ?x with _ => _ end] => destruct x
         end;
  intros E; inversion E; reflexivity.

Lemma sanitize_str_allowed (s : string) : all_chars allowed (sanitize_str s) = true.
Proof.
  unfold sanitize_str, replace, re_sub. cbv zeta.
  repeat (apply sub_go_all_chars; [replacement_chars|]).
  apply filter_chars_all.
Qed.

Lemma sanitize_str_no_cr (s : string) : all_chars not_cr (sanitize_str s) = true.
Proof.
  unfold sanitize_str, replace, re_sub. cbv zeta.
  do 2 (apply sub_go_all_chars; [replacement_chars|]).
  apply replace_cr_result.
Qed.

Lemma sanitize_str_no_space_after_newline (s : string) :
  no_space_after_newline (sanitize_str s) = true.
Proof.
  unfold sanitize_str, re_sub. cbv zeta.
  apply (space_run_result _ _ true (le_n _)).
  apply (newline_spaces_result _ _ true (le_n _)).
Qed.

Lemma sanitize_str_no_double_space (s : string) :
  no_double_space (sanitize_str s) = true.
Proof.
  unfold sanitize_str, re_sub. cbv zeta.
  apply (space_run_result _ _ true (le_n _)).
Qed.

(** C10: the Sanitizer is idempotent. *)
Theorem sanitize_str_idempotent (s : string) :
  sanitize_str (sanitize_str s) = sanitize_str s.
Proof.
  pose proof (sanitize_str_allowed s) as Hallowed.
  pose proof (sanitize_str_no_cr s) as Hcr.
  pose proof (sanitize_str_no_space_after_newline s) as Hnl.
  pose proof (sanitize_str_no_double_space s) as Hsp.
  set (t := sanitize_str s) in *. clearbody t.
  unfold sanitize_str, replace, re_sub. cbv zeta.
  rewrite (filter_chars_id _ _ Hallowed).
  rewrite (sub_go_fixed _ t true (literal_cr_nowhere _ _ _ Hcr)).
  change (str CR) with (String CR "").
  rewrite (sub_go_fixed _ t true (literal_cr_nowhere _ _ _ Hcr)).
  rewrite (sub_go_fixed _ t true (newline_spaces_nowhere _ Hnl)).
  apply (sub_go_fixed _ t true (space_run_nowhere _ Hsp)).
Qed.

(** ** [clean_page_number] *)

Lemma lower_char_zero (c : ascii) : Ascii.eqb "0" (lower_char c) = Ascii.eqb "0" c.
Proof. destruct c as [[] [] [] [] [] [] [] []]; reflexivity. Qed.

Lemma lower_lstrip_zeros (s : string) :
  lower (lstrip (Ascii.eqb "0") s) = lstrip (Ascii.eqb "0") (lower s).
Proof.
  induction s as [|c r IH]; [reflexivity|]. simpl.
  rewrite lower_char_zero. now destruct (Ascii.eqb "0" c).
Qed.

Lemma is_digit_zero (c : ascii) : Ascii.eqb "0" c = true -> is_digit c = true.
Proof. intros H. apply Ascii.eqb_eq in H. now subst c. Qed.

Lemma page_label_shape_lstrip (s : string) :
  page_label_shape s = true -> page_label_shape (lstrip (Ascii.eqb "0") s) = true.
Proof.
  induction s as [|c r IH]; [reflexivity|]. intros H. simpl.
  destruct (Ascii.eqb "0" c) eqn:E; [|exact H].
  simpl in H. rewrite (is_digit_zero c E) in H. now apply IH.
Qed.

Lemma page_label_shape_chars (s : string) :
  page_label_shape s = true -> all_chars is_label_char s = true.
Proof.
  induction s as [|c r IH]; [reflexivity|]. simpl. unfold is_label_char at 1.
  destruct (is_digit c); simpl; [exact IH|].
  intros H. apply andb_true_iff in H as [Hc Hr].
  rewrite Hc. destruct r; [reflexivity | discriminate].
Qed.

Lemma lstrip_zeros_head (s : string) :
  startswith "0" (lstrip (Ascii.eqb "0") s) = false.
Proof.
  induction s as [|c r IH]; [reflexivity|]. simpl.
  destruct (Ascii.eqb "0" c) eqn:E; [exact IH|].
  simpl. now rewrite E.
Qed.

(** C8, as the code has it: the label keeps only digits and the letters
    [a] and [b], in the order they come, after its leading zeros are
    stripped and it is lowercased; a label whose lowercased form is
    digits followed by at most one [a] or [b] keeps that shape and
    loses its leading zeros; [None] stays [None]. *)
Theorem clean_page_number_keeps_label_chars :
  clean_page_number None = None /\
  forall s, exists r,
    clean_page_number (Some s) = Some r /\
    r = filter_chars is_label_char (lower (lstrip (Ascii.eqb "0") s)) /\
    all_chars is_label_char r = true /\
    (page_label_shape (lower s) = true ->
     r = lstrip (Ascii.eqb "0") (lower s) /\
     page_label_shape r = true /\ startswith "0" r = false).
Proof.
  split; [reflexivity|]. intros s.
  exists (filter_chars is_label_char (lower (lstrip (Ascii.eqb "0") s))).
  split; [reflexivity|]. split; [reflexivity|].
  split; [apply filter_chars_all|].
  intros H. rewrite lower_lstrip_zeros.
  apply page_label_shape_lstrip in H.
  rewrite (filter_chars_id _ _ (page_label_shape_chars _ H)).
  split; [reflexivity|]. split; [exact H | apply lstrip_zeros_head].
Qed.

(** C8, as stated, fails: a marker carrying two folio sides normalizes
    to a label with a letter in the middle, outside the stated pattern;
    and a zero that follows a dropped character stays in front. *)
Lemma clean_page_number_not_always_shaped :
  clean_page_number (Some "1a-2b") = Some "1a2b" /\
  page_label_shape "1a2b" = false /\
  clean_page_number (Some "-01") = Some "01".
Proof. repeat split; reflexivity. Qed.

(** ** [parse_document] *)

(** The first testable example of the Structural Parser. *)
Example parse_document_two_pages :
  parse_document ("@1a first" ++ String LF (str LF) ++ "@2a second") =
  [ {| number := Some "1a"; content := ["first"] |};
    {| number := Some "2a"; content := ["second"] |} ].
Proof. reflexivity. Qed.

Example parse_document_no_marker :
  parse_document "text without a marker" =
  [ {| number := None; content := ["text without a marker"] |} ].
Proof. reflexivity. Qed.

Example parse_document_missing_first_marker :
  map number (parse_document ("title" ++ String LF (str LF) ++ "@1a first @2a second")) =
  [Some "1a"; Some "1b"; Some "2a"] /\
  map number (parse_document ("title" ++ String LF (str LF) ++ "@1 first @2a second")) =
  [Some "1a"; Some "1b"; Some "2a"] /\
  map number (parse_document ("title" ++ String LF (str LF) ++ "@1b first @2a second")) =
  [None; Some "1b"; Some "2a"].
Proof. repeat split; reflexivity. Qed.

Lemma number_is_spec (p : page) (label : string) :
  number_is p label = true <-> number p = Some label.
Proof.
  unfold number_is. destruct (number p) as [n|].
  - rewrite String.eqb_eq. split; congruence.
  - split; discriminate.
Qed.

Lemma number_is_none_spec (p : page) : number_is_none p = true <-> number p = None.
Proof. unfold number_is_none. destruct (number p); split; congruence. Qed.

(** C9: the first-page repair.  With three pages at least, no number on
    the first, ["1a"] or ["1"] on the second and ["2a"] on the third,
    the first two pages are relabelled ["1a"] and ["1b"] and nothing
    else changes; in every other case the pages stay as parsed. *)
Theorem parse_document_first_page_repair (text : string) :
  (forall p0 p1 p2 rest,
      parse_pages text = p0 :: p1 :: p2 :: rest ->
      number p0 = None ->
      number p1 = Some "1a" \/ number p1 = Some "1" ->
      number p2 = Some "2a" ->
      parse_document text =
        {| number := Some "1a"; content := content p0 |}
          :: {| number := Some "1b"; content := content p1 |} :: p2 :: rest) /\
  (~ first_marker_missing (parse_pages text) ->
   parse_document text = parse_pages text).
Proof.
  unfold parse_document. split.
  - intros p0 p1 p2 rest E H0 H1 H2. rewrite E. unfold first_page_repair.
    apply number_is_none_spec in H0. apply number_is_spec in H2.
    rewrite H0, H2.
    destruct H1 as [H1|H1]; apply number_is_spec in H1; rewrite H1;
      rewrite ?orb_true_r; reflexivity.
  - intros Hno. destruct (parse_pages text) as [|p0 [|p1 [|p2 rest]]]; try reflexivity.
    unfold first_page_repair.
    destruct (number_is_none p0 && (number_is p1 "1a" || number_is p1 "1")
              && number_is p2 "2a") eqn:E; [|reflexivity].
    exfalso. apply Hno.
    apply andb_true_iff in E as [E E2]. apply andb_true_iff in E as [E0 E1].
    exists p0, p1, p2, rest. split; [reflexivity|].
    split; [now apply number_is_none_spec|].
    split; [|now apply number_is_spec].
    apply orb_true_iff in E1 as [E1|E1]; [left|right]; now apply number_is_spec.
Qed.

(** ** The Tag-Aware Transliteration Splitter *)

Lemma join_app (a b : list string) : join (a ++ b)%list = join a ++ join b.
Proof.
  induction a as [|x r IH]; simpl; [reflexivity|].
  now rewrite IH, append_assoc.
Qed.

Section Splitter.

Variable ACIPtoEWTS : string -> string.
Variable toUnicode : string -> string.

Local Abbreviation step := (convert_part ACIPtoEWTS toUnicode).
Local Abbreviation run st parts := (fold_left step parts st).

Lemma convert_part_tag (st : splitter) (part : string) :
  is_tag part = true ->
  step st part =
    {| result := (result st ++ [part])%list;
       skip := should_skip_tag part;
       last_is_shad := last_is_shad st |}.
Proof. intros H. unfold convert_part. now rewrite H. Qed.

Lemma convert_part_text (st : splitter) (part : string) :
  is_tag part = false ->
  step st part =
    {| result :=
         (result st ++
          [escape ((if last_is_shad st then " " else "") ++
                   (if skip st then part
                    else ACIP_transform ACIPtoEWTS toUnicode part (last_is_shad st)))])%list;
       skip := skip st;
       last_is_shad := negb (skip st) && non_empty part && ends_in_shad part |}.
Proof.
  intros H. unfold convert_part. rewrite H.
  now destruct (last_is_shad st).
Qed.

(** One step appends one string, and what it appends and the state it
    leaves do not depend on the output so far. *)
Lemma convert_part_restart (st : splitter) (part : string) :
  result (step st part) = (result st ++ result (step (restart st) part))%list /\
  restart (step st part) = restart (step (restart st) part).
Proof.
  destruct (is_tag part) eqn:E.
  - rewrite !convert_part_tag by exact E. now split.
  - rewrite !convert_part_text by exact E. now split.
Qed.

Lemma run_restart (parts : list string) :
  forall st,
    result (run st parts) = (result st ++ result (run (restart st) parts))%list /\
    restart (run st parts) = restart (run (restart st) parts).
Proof.
  induction parts as [|part rest IH]; intros st.
  - simpl. now rewrite app_nil_r.
  - simpl fold_left.
    destruct (convert_part_restart st part) as [Hr Hs].
    destruct (IH (step st part)) as [H1 H2].
    destruct (IH (step (restart st) part)) as [H3 H4].
    split.
    + rewrite H1, H3, Hr, Hs. now rewrite app_assoc.
    + now rewrite H2, H4, Hs.
Qed.

(** C4, as the code has it: a text token that follows a tag with the
    English-language marker is not transliterated; it is written
    XML-escaped, after one space when the text run before the tag
    ended in a shad character, and the splitter goes on in the skip
    state. *)
Theorem english_text_is_escaped_not_transliterated
    (text : string) (pre : list string) (tag x : string) (post : list string) :
  re_split tag_pattern text = (pre ++ tag :: x :: post)%list ->
  is_tag tag = true ->
  should_skip_tag tag = true ->
  is_tag x = false ->
  let st := fold_left (convert_part ACIPtoEWTS toUnicode) pre splitter_init in
  convert_text_components ACIPtoEWTS toUnicode text =
    join (result st) ++ tag
    ++ escape ((if last_is_shad st then " " else "") ++ x)
    ++ join (result (fold_left (convert_part ACIPtoEWTS toUnicode) post
                       {| result := []; skip := true; last_is_shad := false |})).
Proof.
  intros Hsplit Htag Hen Hx st.
  unfold convert_text_components. rewrite Hsplit, fold_left_app. fold st.
  simpl fold_left.
  rewrite (convert_part_tag st tag Htag), Hen.
  rewrite convert_part_text by exact Hx. simpl skip. simpl last_is_shad.
  cbv beta iota. simpl negb. simpl andb.
  match goal with
  | |- join (result (fold_left step post ?s)) = _ =>
      destruct (run_restart post s) as [H _]; rewrite H
  end.
  unfold restart. simpl result. simpl skip. simpl last_is_shad.
  rewrite !join_app. simpl join. rewrite append_empty_r.
  now rewrite !append_assoc.
Qed.

End Splitter.

(** C4 at a concrete fragment: the candidate markup of the paragraph
    [ka,[#a & b]]. *)
Lemma english_text_is_escaped_example :
  convert_text_components untransliterated untransliterated
    ("<lb/>ka," ++ NOTE_OPEN ++ "a & b</note>") =
  "<lb/>ka," ++ NOTE_OPEN ++ " a &amp; b</note>".
Proof.
  rewrite (english_text_is_escaped_not_transliterated
             untransliterated untransliterated
             ("<lb/>ka," ++ NOTE_OPEN ++ "a & b</note>")
             [""; "<lb/>"; "ka,"] NOTE_OPEN "a & b" ["</note>"; ""]);
    reflexivity.
Defined.

(** C4, as stated, fails: the English text of the note [#a & b]
    leaves the splitter XML-escaped, and that of the note [#x], after a
    run that ends in a comma, with a space in front. *)
Lemma english_text_not_byte_identical :
  annotate "ka [#a & b]" 2 = "<lb/>ka " ++ NOTE_OPEN ++ "a & b</note>" /\
  candidate untransliterated untransliterated "ka [#a & b]" 2 =
    "<lb/>ka " ++ NOTE_OPEN ++ "a &amp; b</note>" /\
  contains "a & b" (candidate untransliterated untransliterated "ka [#a & b]" 2) = false /\
  annotate "ka,[#x]" 2 = "<lb/>ka," ++ NOTE_OPEN ++ "x</note>" /\
  candidate untransliterated untransliterated "ka,[#x]" 2 =
    "<lb/>ka," ++ NOTE_OPEN ++ " x</note>".
Proof. repeat split; vm_compute; reflexivity. Qed.

(** ** Stripping *)

Lemma lstrip_all (f : ascii -> bool) (s : string) :
  all_chars f s = true -> lstrip f s = "".
Proof.
  induction s as [|c r IH]; [reflexivity|]. simpl. intros H.
  apply andb_true_iff in H as [Hc Hr]. now rewrite Hc, IH.
Qed.

Lemma lstrip_head (f : ascii -> bool) (s : string) :
  all_chars f s = false -> exists c r, lstrip f s = String c r /\ f c = false.
Proof.
  induction s as [|c r IH]; [discriminate|]. simpl.
  destruct (f c) eqn:E; simpl; [exact IH|].
  intros _. now exists c, r.
Qed.

Lemma rstrip_keeps_head (f : ascii -> bool) (c : ascii) (r : string) :
  f c = false -> exists r', rstrip f (String c r) = String c r'.
Proof.
  intros H. simpl. destruct (rstrip f r) as [|d r'].
  - rewrite H. now exists "".
  - now exists (String d r').
Qed.

Lemma rstrip_last (f : ascii -> bool) (s : string) :
  rstrip f s = "" \/ exists d, last_char (rstrip f s) = Some d /\ f d = false.
Proof.
  induction s as [|c r IH]; [now left|]. simpl.
  destruct (rstrip f r) as [|d r'] eqn:E.
  - destruct (f c) eqn:Ec; [now left|]. right. now exists c.
  - right. destruct IH as [IH|[e [He Hf]]]; [discriminate|].
    exists e. split; [|exact Hf]. exact He.
Qed.

Lemma rstrip_fixed (g : ascii -> bool) (s : string) (d : ascii) :
  last_char s = Some d -> g d = false -> rstrip g s = s.
Proof.
  induction s as [|c r IH]; [discriminate|]. intros Hl Hd.
  destruct r as [|c' r'].
  - simpl in *. injection Hl as ->. now rewrite Hd.
  - change (last_char (String c (String c' r'))) with (last_char (String c' r')) in Hl.
    change (rstrip g (String c (String c' r'))) with
      (match rstrip g (String c' r') with
       | "" => if g c then "" else str c
       | x => String c x
       end).
    now rewrite (IH Hl Hd).
Qed.

(** A string with a character that [f] does not strip is not stripped
    to nothing, and a second stripping with a smaller set changes
    nothing. *)
Lemma strip_strip (f g : ascii -> bool) (s : string) :
  (forall c, g c = true -> f c = true) ->
  all_chars f s = false ->
  strip f s <> "" /\ strip g (strip f s) = strip f s.
Proof.
  intros Hgf Hs. unfold strip at 1 3 4.
  destruct (lstrip_head f s Hs) as (c & r & -> & Hc).
  destruct (rstrip_keeps_head f c r Hc) as [r' E]. rewrite E.
  split; [discriminate|].
  assert (Hgc : g c = false).
  { destruct (g c) eqn:G; [|reflexivity]. apply Hgf in G. congruence. }
  unfold strip. simpl lstrip. rewrite Hgc.
  destruct (rstrip_last f (String c r)) as [H|[d [Hl Hd]]]; rewrite E in *;
    [discriminate|].
  apply (rstrip_fixed g _ d Hl).
  destruct (g d) eqn:G; [|reflexivity]. apply Hgf in G. congruence.
Qed.

Lemma strip_non_empty (f : ascii -> bool) (s : string) :
  non_empty (strip f s) = true -> all_chars f s = false.
Proof.
  destruct (all_chars f s) eqn:E; [|reflexivity].
  unfold strip. now rewrite (lstrip_all f s E).
Qed.

Lemma take_drop_all (p : ascii -> bool) (n : nat) (s : string) :
  all_chars p (take n s) = true -> all_chars p (drop n s) = true ->
  all_chars p s = true.
Proof.
  revert s; induction n as [|n IH]; intros [|c r]; simpl; auto.
  intros H1 H2. apply andb_true_iff in H1 as [Hc Hr].
  now rewrite Hc, (IH r).
Qed.

Lemma startswith_take (old t : string) :
  startswith old t = true -> take (String.length old) t = old.
Proof.
  revert t; induction old as [|a old IH]; intros [|b t]; simpl; try easy.
  intros H. apply andb_true_iff in H as [Hab H].
  apply Ascii.eqb_eq in Hab. subst b. now rewrite IH.
Qed.

(** When a pattern matches only characters of the set [f], a result
    within [f] comes from a subject within [f]. *)
Lemma sub_go_keeps_other (f : ascii -> bool) (m : matcher) :
  (forall b t repl n, m b t = Some (repl, n) -> all_chars f (take n t) = true) ->
  forall s b k,
    all_chars f (sub_go m b k s) = true -> all_chars f (drop k s) = true.
Proof.
  intros Hm. induction s as [|c r IH]; intros b k H.
  - now rewrite drop_empty.
  - destruct k as [|k]; [|exact (IH false k H)].
    rewrite sub_go_step in H. simpl drop.
    destruct (m b (String c r)) as [[repl [|j]]|] eqn:E.
    + simpl in H. apply andb_true_iff in H as [Hc Hr].
      simpl. rewrite Hc. exact (IH false 0 Hr).
    + rewrite all_chars_append in H. apply andb_true_iff in H as [_ Hr].
      apply (take_drop_all f (S j)); [exact (Hm _ _ _ _ E)|].
      simpl. rewrite <- sub_go_skip in Hr. exact (IH false j Hr).
    + simpl in H. apply andb_true_iff in H as [Hc Hr].
      simpl. rewrite Hc. exact (IH false 0 Hr).
Qed.

Lemma replace_keeps_other (f : ascii -> bool) (old new s : string) :
  all_chars f old = true ->
  all_chars f s = false -> all_chars f (replace old new s) = false.
Proof.
  intros Hold Hs.
  destruct (all_chars f (replace old new s)) eqn:E; [|reflexivity].
  apply (sub_go_keeps_other f) in E; [simpl in E; congruence|].
  intros b t repl n. unfold literal.
  destruct (startswith old t) eqn:St; [|discriminate].
  intros H. injection H as _ <-. now rewrite (startswith_take old t St).
Qed.

(** ** The paragraphs of a parsed document *)

Lemma line_trim_is_space (c : ascii) : line_trim c = true -> is_space c = true.
Proof.
  unfold line_trim. intros H.
  repeat (apply orb_true_iff in H as [H|H]);
    apply Ascii.eqb_eq in H; subst c; reflexivity.
Qed.

Lemma paragraphs_solid (part para : string) :
  In para (paragraphs part) -> solid para.
Proof.
  unfold paragraphs. intros H.
  apply in_map_iff in H as (p & <- & Hp).
  apply filter_In in Hp as [_ Hp].
  apply strip_non_empty in Hp.
  apply (replace_keeps_other is_space (str LF) " ") in Hp; [|reflexivity].
  apply (replace_keeps_other is_space "  " " ") in Hp; [|reflexivity].
  exact (strip_strip is_space line_trim _ line_trim_is_space Hp).
Qed.

Lemma close_page_solid (st : parse_state) :
  solid_state st -> solid_pages (close_page st).
Proof.
  intros [Hp Hc]. unfold close_page.
  destruct (page_pending st); [|exact Hp].
  intros pg para Hpg Hin. apply in_app_or in Hpg as [Hpg|[<-|[]]].
  - exact (Hp pg para Hpg Hin).
  - exact (Hc para Hin).
Qed.

Lemma parse_step_solid (st : parse_state) (part : string) :
  solid_state st -> solid_state (parse_step st part).
Proof.
  intros H. unfold parse_step.
  destruct (page_match part) as [label|].
  - split; [exact (close_page_solid st H) | intros para []].
  - destruct (non_empty (strip_ws part)); [|exact H].
    destruct H as [Hp Hc]. split; [exact Hp|]. simpl.
    intros para Hin. apply in_app_or in Hin as [Hin|Hin].
    + exact (Hc para Hin).
    + exact (paragraphs_solid part para Hin).
Qed.

Lemma parse_loop_solid (parts : list string) :
  forall st, solid_state st -> solid_state (fold_left parse_step parts st).
Proof.
  induction parts as [|part rest IH]; intros st H; [exact H|].
  simpl. apply IH. now apply parse_step_solid.
Qed.

Lemma first_page_repair_solid (ps : list page) :
  solid_pages ps -> solid_pages (first_page_repair ps).
Proof.
  intros H. unfold first_page_repair.
  destruct ps as [|p0 [|p1 [|p2 rest]]]; try exact H.
  destruct (number_is_none p0 && (number_is p1 "1a" || number_is p1 "1")
            && number_is p2 "2a"); [|exact H].
  intros pg para Hpg Hin.
  destruct Hpg as [<-|[<-|Hpg]].
  - apply (H p0 para); [now left | exact Hin].
  - apply (H p1 para); [right; now left | exact Hin].
  - apply (H pg para); [right; right; exact Hpg | exact Hin].
Qed.

Lemma parse_document_solid (text : string) : solid_pages (parse_document text).
Proof.
  unfold parse_document, parse_pages.
  apply first_page_repair_solid, close_page_solid, parse_loop_solid.
  split; [intros pg para [] | intros para []].
Qed.

(** ** [convert_line] *)

(** The splitter run on a token list that is known, whatever the
    adapter is. *)
Ltac run_splitter := cbv -[escape ACIP_transform]; reflexivity.

Lemma strip_idempotent (f : ascii -> bool) (s : string) :
  strip f (strip f s) = strip f s.
Proof.
  destruct (all_chars f s) eqn:E.
  - unfold strip. now rewrite (lstrip_all f s E).
  - now apply (strip_strip f f).
Qed.

Lemma original_line_str_blank (line : string) :
  strip line_trim line = "" -> original_line_str line = "".
Proof. intros H. unfold original_line_str. now rewrite H. Qed.

Lemma annotate_blank (line : string) (variant_mode : Z) :
  strip line_trim line = "" -> annotate line variant_mode = "<lb/>".
Proof.
  intros H. unfold annotate. rewrite (original_line_str_blank line H).
  now destruct (variant_mode =? 1)%Z.
Qed.

Section Converter.

Variable ACIPtoEWTS : string -> string.
Variable toUnicode : string -> string.
Variable is_valid_xml : string -> bool.

Local Abbreviation transliterate := (ACIP_transform ACIPtoEWTS toUnicode).
Local Abbreviation to_markup := (candidate ACIPtoEWTS toUnicode).
Local Abbreviation convert := (convert_line ACIPtoEWTS toUnicode is_valid_xml).

(** C5, as the code has it: when the candidate does not parse, the
    output is recomputed from the paragraph as it stands after trimming
    and after the space for the final tsheg is appended (before the
    brackets are balanced, the line break is inserted and the rules are
    applied): that string is transliterated whole, the result is
    trimmed and then XML-escaped. *)
Theorem convert_line_fallback (line : string) (variant_mode : Z) :
  is_valid_xml ("<p>" ++ to_markup line variant_mode ++ "</p>") = false ->
  let trimmed := strip line_trim line in
  let source := if ends_in_letter trimmed then trimmed ++ " " else trimmed in
  convert line variant_mode = escape (strip_ws (transliterate source false)) /\
  original_line_str line = source /\
  original_line_str trimmed = source.
Proof.
  intros H trimmed source. unfold convert_line. cbv zeta. rewrite H.
  split; [reflexivity|]. split; [reflexivity|]. unfold original_line_str. subst source trimmed.
  now rewrite strip_idempotent.
Qed.

(** C6, as the code has it: the ChoiceCorrection rule turns the
    paragraph into one choice element whose orig child holds the
    line-break marker and the word and whose corr child, with the
    low-certainty attribute, holds the correction without its question
    mark; the splitter then transliterates the two text runs, and that
    fragment is the output when the parser accepts it. *)
Theorem choice_correction_example :
  let e := escape (transliterate "" false) in
  let fragment :=
    join [e; "<choice>"; e; "<orig>"; e; "<lb/>";
          escape (transliterate "rgyal" false); "</orig>"; e;
          "<corr" ++ CERT_LOW ++ ">";
          escape (transliterate "rgyas" false); "</corr>"; e; "</choice>"; e] in
  annotate "rgyal [rgyas?]" 1 =
    "<choice><orig><lb/>rgyal</orig><corr" ++ CERT_LOW ++ ">rgyas</corr></choice>" /\
  to_markup "rgyal [rgyas?]" 1 = fragment /\
  (is_valid_xml ("<p>" ++ fragment ++ "</p>") = true ->
   convert "rgyal [rgyas?]" 1 = strip_ws fragment).
Proof.
  intros e fragment.
  assert (Ha : annotate "rgyal [rgyas?]" 1 =
               "<choice><orig><lb/>rgyal</orig><corr" ++ CERT_LOW ++ ">rgyas</corr></choice>")
    by (vm_compute; reflexivity).
  assert (Hc : to_markup "rgyal [rgyas?]" 1 = fragment).
  { unfold candidate, convert_text_components. rewrite Ha.
    match goal with
    | |- context [re_split tag_pattern ?t] =>
        let v := eval vm_compute in (re_split tag_pattern t) in
        change (re_split tag_pattern t) with v
    end.
    subst fragment e. run_splitter. }
  split; [exact Ha|]. split; [exact Hc|].
  intros Hv. unfold convert_line. cbv zeta. rewrite Hc, Hv. reflexivity.
Qed.

(** C7, as the code has it: no paragraph of a parsed document is empty
    after trimming, because the Structural Parser keeps no blank chunk;
    [convert_line] itself turns a blank string into the line-break
    marker, not into an empty fragment; and [convert_file] writes no
    empty line. *)
Theorem blank_paragraphs_are_dropped_by_the_parser :
  (forall text pg para,
      In pg (parse_document text) -> In para (content pg) ->
      para <> "" /\ strip line_trim para = para) /\
  (forall line variant_mode,
      strip line_trim line = "" ->
      to_markup line variant_mode =
        escape (transliterate "" false) ++ "<lb/>" ++ escape (transliterate "" false)) /\
  (forall variant_mode pg written,
      In written (render_page ACIPtoEWTS toUnicode is_valid_xml variant_mode pg) ->
      written <> "").
Proof.
  split; [|split].
  - intros text pg para Hpg Hpara.
    exact (parse_document_solid text pg para Hpg Hpara).
  - intros line variant_mode H. unfold candidate, convert_text_components.
    rewrite (annotate_blank line variant_mode H).
    change (re_split tag_pattern "<lb/>") with [""; "<lb/>"; ""].
    transitivity (join [escape (transliterate "" false); "<lb/>";
                        escape (transliterate "" false)]); [run_splitter|].
    simpl join. now rewrite append_empty_r.
  - intros variant_mode pg written. unfold render_page.
    destruct (is_blank pg).
    + intros [<-|[]]. discriminate.
    + intros [<-|H]; [discriminate|].
      apply filter_In in H as [_ H]. now destruct written.
Qed.

End Converter.

(** ** The claims about [convert_line] at concrete paragraphs

    The paragraph [ (a [#b) c] ] has its parenthesis closed inside the
    note, so its candidate fragment closes [hi] inside [note]: no XML
    parser accepts it. *)

Lemma mismatched_candidate :
  candidate untransliterated untransliterated " (a [#b) c] " 2 =
  "<lb/>" ++ HI_OPEN ++ "a " ++ NOTE_OPEN ++ "b</hi>" ++ TSHEG ++ " c</note>".
Proof. vm_compute. reflexivity. Qed.

(** C5 at that paragraph: the fallback starts from the trimmed
    paragraph. *)
Lemma convert_line_fallback_example :
  convert_line untransliterated untransliterated parser_rejects " (a [#b) c] " 2 =
  "(a [#b) c]".
Proof.
  pose proof (convert_line_fallback untransliterated untransliterated parser_rejects
                " (a [#b) c] " 2 eq_refl) as H.
  cbv zeta in H. destruct H as [H _]. rewrite H. vm_compute. reflexivity.
Defined.

(** C5, as stated, fails: transliterating and escaping the untouched
    paragraph keeps its surrounding spaces (the leading one answered
    with a tsheg by the adapter), while the output of [convert_line]
    comes from the trimmed paragraph and is trimmed again. *)
Lemma fallback_is_not_from_the_untouched_paragraph :
  convert_line untransliterated untransliterated parser_rejects " (a [#b) c] " 2 =
    "(a [#b) c]" /\
  escape (ACIP_transform untransliterated untransliterated " (a [#b) c] " false) =
    TSHEG ++ " (a [#b) c] " /\
  convert_line untransliterated untransliterated parser_rejects " (a [#b) c] " 2 <>
    escape (ACIP_transform untransliterated untransliterated " (a [#b) c] " false).
Proof.
  split; [vm_compute; reflexivity|]. split; [vm_compute; reflexivity|].
  vm_compute. discriminate.
Qed.

(** C6, as stated, fails: the text of the orig and corr children is
    what the adapter makes of the two words, not the words; and even
    under a transliteration that changes nothing the orig child is not
    the bare word, since the line-break marker put in front of the
    paragraph is taken into it. *)
Lemma choice_text_is_transliterated :
  convert_line capitals untransliterated parser_accepts "rgyal [rgyas?]" 1 =
    "<choice><orig><lb/>RGYAL</orig><corr" ++ CERT_LOW ++ ">RGYAS</corr></choice>" /\
  convert_line untransliterated untransliterated parser_accepts "rgyal [rgyas?]" 1 =
    "<choice><orig><lb/>rgyal</orig><corr" ++ CERT_LOW ++ ">rgyas</corr></choice>" /\
  contains "<orig>rgyal</orig>"
    (convert_line untransliterated untransliterated parser_accepts "rgyal [rgyas?]" 1) = false.
Proof. repeat split; vm_compute; reflexivity. Qed.

(** C7, as stated, fails: given a blank paragraph, [convert_line]
    returns the line-break marker, and [convert_file] would write it
    after the page break. *)
Lemma blank_paragraph_yields_a_line_break :
  strip line_trim "  " = "" /\
  convert_line untransliterated untransliterated parser_accepts "  " 2 = "<lb/>" /\
  render_page untransliterated untransliterated parser_accepts 2
    {| number := Some "1a"; content := ["  "] |} =
    ["<pb n=" ++ q ++ "1a" ++ q ++ "/>"; "<lb/>"].
Proof. repeat split; vm_compute; reflexivity. Qed.

(** ** Further examples from the specification *)

(** The UnclearSupplied rules on a lone gap marker and on a note about
    a missing folio, before transliteration. *)
Example unclear_supplied_examples :
  annotate "[?]" 2 = "<lb/>" ++ GAP /\
  annotate "[missing folio]" 2 = "<lb/>" ++ NOTE_OPEN ++ "missing folio</note>" /\
  annotate "ka [kha?]" 2 = "<lb/>ka " ++ UNCLEAR_OPEN ++ "kha</unclear>".
Proof. repeat split; vm_compute; reflexivity. Qed.

(** A page whose only paragraph says that the page is missing is
    written as a blank page break, without text, whatever the
    adapter. *)
Example missing_page_is_blank
    (ACIPtoEWTS toUnicode : string -> string) (is_valid_xml : string -> bool)
    (variant_mode : Z) :
  render_page ACIPtoEWTS toUnicode is_valid_xml variant_mode
    {| number := Some "3a"; content := ["MISSING PAGE"] |} =
  ["<pb n=" ++ q ++ "3a" ++ q ++ " rend=" ++ q ++ "blank" ++ q ++ "/>"].
Proof. reflexivity. Qed.


Lemma balance_doubles_excess_example :
  count "[" (balance_parentheses "[a [b] c" "[" "]") -
  count "]" (balance_parentheses "[a [b] c" "[" "]") = 2.
Proof.
  pose proof (balance_doubles_excess "[a [b] c" "[" "]") as H.
  cbv zeta in H. destruct H as [H _]; [discriminate|].
  rewrite H. reflexivity.
Defined.


(** ** Where the repair of [balance_parentheses] is idempotent *)

Lemma length_append (a b : string) :
  String.length (a ++ b) = String.length a + String.length b.
Proof. induction a as [|c r IH]; simpl; [reflexivity | now rewrite IH]. Qed.

Lemma length_repeat_char (c : ascii) (n : nat) : String.length (repeat_char c n) = n.
Proof. induction n as [|n IH]; simpl; [reflexivity | now rewrite IH]. Qed.

Lemma balance_length (s : string) (c1 c2 : ascii) :
  String.length (balance_parentheses s c1 c2) =
  String.length s + (count c1 s - count c2 s) + (count c2 s - count c1 s).
Proof.
  destruct (Nat.lt_trichotomy (count c1 s) (count c2 s)) as [H|[H|H]].
  - rewrite balance_more_closed, length_append, length_repeat_char by exact H. lia.
  - rewrite balance_equal by exact H. lia.
  - rewrite balance_more_open, length_append, length_repeat_char by exact H. lia.
Qed.

(** The repair is idempotent on a text exactly when the text is
    balanced already: on any other text every application makes the
    result longer. *)
Lemma balance_idempotent_iff_balanced (s : string) (c1 c2 : ascii) :
  c1 <> c2 ->
  balance_parentheses (balance_parentheses s c1 c2) c1 c2 = balance_parentheses s c1 c2
  <-> count c1 s = count c2 s.
Proof.
  intros Hne. split.
  - intros H. apply (f_equal String.length) in H.
    rewrite (balance_length (balance_parentheses s c1 c2)) in H.
    destruct (balance_doubles_excess s c1 c2 Hne) as [H1 H2]. lia.
  - intros H. now rewrite !(balance_equal s c1 c2 H).
Qed.

Lemma balance_idempotent_iff_balanced_example :
  balance_parentheses (balance_parentheses "(a) [b]" "(" ")") "(" ")" =
  balance_parentheses "(a) [b]" "(" ")".
Proof.
  apply (balance_idempotent_iff_balanced "(a) [b]" "(" ")"); [discriminate | reflexivity].
Defined.

(** ** What the well-formedness of the output rests on *)



(** ** [saxutils.escape] *)

(** Replacing a one-character string leaves none of that character,
    when the replacement has none. *)
Lemma replace_char_removes (c : ascii) (new : string) :
  all_chars (is_not c) new = true ->
  forall s b, all_chars (is_not c) (sub_go (literal (str c) new) b 0 s) = true.
Proof.
  intros Hnew. induction s as [|x r IH]; intros b; [reflexivity|].
  rewrite sub_go_step. unfold literal at 1. simpl startswith. simpl String.length.
  rewrite andb_true_r.
  destruct (Ascii.eqb c x) eqn:E.
  - simpl drop. rewrite all_chars_append, Hnew. apply IH.
  - simpl. unfold is_not at 1. now rewrite (Ascii.eqb_sym x c), E, IH.
Qed.

Lemma literal_replacement_chars (p : ascii -> bool) (old new : string) :
  all_chars p new = true ->
  forall b t repl n, literal old new b t = Some (repl, n) -> all_chars p repl = true.
Proof.
  intros Hnew b t repl n. unfold literal.
  destruct (startswith old t); [|discriminate].
  intros H. now injection H as <- _.
Qed.

Lemma literal_char_nowhere (c : ascii) (tail new s : string) :
  all_chars (is_not c) s = true -> matches_nowhere (literal (String c tail) new) s.
Proof.
  intros H n b. apply (all_chars_drop _ n) in H.
  destruct (drop n s) as [|x r]; [reflexivity|].
  simpl in H. apply andb_true_iff in H as [H _].
  unfold literal. simpl.
  unfold is_not in H. apply negb_true_iff in H.
  now rewrite (Ascii.eqb_sym c x), H.
Qed.

(** Escaped text holds no angle bracket, and text with nothing to
    escape (no ampersand, no angle bracket) is left as it is. *)
Theorem escape_leaves_no_angle_bracket (data : string) :
  all_chars (is_not "<") (escape data) = true /\
  all_chars (is_not ">") (escape data) = true /\
  (all_chars (is_not "&") data = true ->
   all_chars (is_not "<") data = true ->
   all_chars (is_not ">") data = true ->
   escape data = data).
Proof.
  unfold escape, replace, re_sub. cbv zeta. split; [|split].
  - apply (replace_char_removes "<" "&lt;"). reflexivity.
  - apply sub_go_all_chars.
    + apply (literal_replacement_chars (is_not ">") "<" "&lt;"). reflexivity.
    + apply (replace_char_removes ">" "&gt;"). reflexivity.
  - intros Ha Hl Hg.
    rewrite (sub_go_fixed _ data true (literal_char_nowhere "&" "" _ data Ha)).
    rewrite (sub_go_fixed _ data true (literal_char_nowhere ">" "" _ data Hg)).
    apply (sub_go_fixed _ data true (literal_char_nowhere "<" "" _ data Hl)).
Qed.

(** ** [sanitize_str]: what it leaves unchanged *)

(** The strings the Sanitizer leaves unchanged are exactly those made
    of allowed characters, without carriage return, without a space
    after a newline and without two spaces in a row. *)
Theorem sanitize_str_fixed_points (s : string) :
  sanitize_str s = s <->
  all_chars allowed s = true /\ all_chars not_cr s = true /\
  no_space_after_newline s = true /\ no_double_space s = true.
Proof.
  split.
  - intros H. rewrite <- H.
    repeat split;
      [ apply sanitize_str_allowed | apply sanitize_str_no_cr
      | apply sanitize_str_no_space_after_newline | apply sanitize_str_no_double_space ].
  - intros (Hallowed & Hcr & Hnl & Hsp).
    unfold sanitize_str, replace, re_sub. cbv zeta.
    rewrite (filter_chars_id _ _ Hallowed).
    rewrite (sub_go_fixed _ s true (literal_cr_nowhere _ _ _ Hcr)).
    change (str CR) with (String CR "").
    rewrite (sub_go_fixed _ s true (literal_cr_nowhere _ _ _ Hcr)).
    rewrite (sub_go_fixed _ s true (newline_spaces_nowhere _ Hnl)).
    apply (sub_go_fixed _ s true (space_run_nowhere _ Hsp)).
Qed.

(** ** The scan of [re.split] *)

Lemma take_drop (n : nat) (s : string) : take n s ++ drop n s = s.
Proof.
  revert s; induction n as [|n IH]; intros [|c r]; simpl; try reflexivity.
  now rewrite IH.
Qed.

Lemma split_go_skip (m : string -> option nat) (keep : bool) (k : nat)
    (cur s : string) :
  split_go m keep k cur s = split_go m keep 0 cur (drop k s).
Proof.
  revert s; induction k as [|k IH]; intros s; [reflexivity|].
  destruct s as [|c r]; simpl; [reflexivity | apply IH].
Qed.

Lemma split_go_step (m : string -> option nat) (keep : bool) (cur : string)
    (c : ascii) (r : string) :
  split_go m keep 0 cur (String c r) =
  match m (String c r) with
  | Some (S k) =>
      cur :: ((if keep then [take (S k) (String c r)] else [])
              ++ split_go m keep 0 "" (drop k r))%list
  | _ => split_go m keep 0 (cur ++ str c) r
  end.
Proof.
  simpl. destruct (m (String c r)) as [[|k]|]; try reflexivity.
  now rewrite split_go_skip.
Qed.

(** Joining what [re.split] returns (with the delimiters kept) gives
    the subject back: nothing is lost and nothing is added. *)
Theorem re_split_join (m : string -> option nat) (s : string) :
  join (re_split m s) = s.
Proof.
  unfold re_split.
  enough (H : forall s k cur, join (split_go m true k cur s) = cur ++ drop k s)
    by apply (H s 0 "").
  clear s. induction s as [|c r IH]; intros k cur.
  - simpl. now rewrite drop_empty.
  - destruct k as [|k]; [|apply IH].
    simpl split_go. simpl drop.
    destruct (m (String c r)) as [[|j]|] eqn:E.
    + rewrite IH. simpl. now rewrite append_assoc.
    + simpl join. rewrite IH. simpl.
      now rewrite (take_drop j r).
    + rewrite IH. simpl. now rewrite append_assoc.
Qed.

Lemma split_go_nowhere (m : string -> option nat) (keep : bool) (s : string) :
  (forall n, m (drop n s) = None) ->
  forall cur, split_go m keep 0 cur s = [cur ++ s].
Proof.
  induction s as [|c r IH]; intros H cur.
  - simpl. now rewrite append_empty_r.
  - pose proof (H 0) as H0. simpl in H0.
    rewrite split_go_step, H0, IH.
    + now rewrite append_assoc.
    + intros n. exact (H (S n)).
Qed.

(** ** The tokens of the splitter *)

Lemma find_char_append (p : ascii -> bool) (a b : string) (n : nat) :
  find_char p a = Some n -> find_char p (a ++ b) = Some n.
Proof.
  revert n; induction a as [|c r IH]; intros n; [discriminate|]. simpl.
  destruct (p c); [easy|].
  destruct (find_char p r) as [k|]; [|discriminate].
  intros H. now rewrite (IH k eq_refl).
Qed.

Lemma find_char_take (p : ascii -> bool) (s : string) (n : nat) :
  find_char p s = Some n -> find_char p (take (S n) s) = Some n.
Proof.
  revert n; induction s as [|c r IH]; intros n; [discriminate|]. simpl.
  destruct (p c); [easy|].
  destruct (find_char p r) as [k|] eqn:E; [|discriminate].
  simpl. intros H. injection H as <-. now rewrite (IH k eq_refl).
Qed.

Lemma find_char_none (p : ascii -> bool) (s : string) :
  all_chars (fun c => negb (p c)) s = true -> find_char p s = None.
Proof.
  induction s as [|c r IH]; [reflexivity|]. simpl.
  intros H. apply andb_true_iff in H as [Hc Hr].
  apply negb_true_iff in Hc. now rewrite Hc, IH.
Qed.

Lemma tag_pattern_cons (c : ascii) (r : string) :
  tag_pattern (String c r) =
  if Ascii.eqb "<" c then
    match find_char (Ascii.eqb ">") r with
    | Some (S n) => Some (S n + 2)
    | _ => None
    end
  else None.
Proof. unfold tag_pattern. simpl. now rewrite andb_true_r. Qed.

Lemma tag_pattern_append (a b : string) (n : nat) :
  tag_pattern a = Some n -> tag_pattern (a ++ b) = Some n.
Proof.
  destruct a as [|c r]; [discriminate|]. simpl append.
  rewrite !tag_pattern_cons.
  destruct (Ascii.eqb "<" c); [|discriminate].
  destruct (find_char (Ascii.eqb ">") r) as [[|k]|] eqn:E; try discriminate.
  now rewrite (find_char_append _ r b _ E).
Qed.

Lemma tag_pattern_take (s : string) (n : nat) :
  tag_pattern s = Some n -> is_tag (take n s) = true.
Proof.
  destruct s as [|c r]; [discriminate|].
  rewrite tag_pattern_cons.
  destruct (Ascii.eqb "<" c) eqn:Ec; [|discriminate].
  destruct (find_char (Ascii.eqb ">") r) as [[|k]|] eqn:E; try discriminate.
  intros H. injection H as <-.
  unfold is_tag. cbn [take Nat.add].
  replace (k + 2) with (S (S k)) by lia.
  now rewrite tag_pattern_cons, Ec, (find_char_take _ r _ E).
Qed.

Lemma tag_pattern_not_zero (s : string) : tag_pattern s <> Some 0.
Proof.
  destruct s as [|c r]; [discriminate|]. rewrite tag_pattern_cons.
  destruct (Ascii.eqb "<" c); [|discriminate].
  destruct (find_char (Ascii.eqb ">") r) as [[|k]|]; try discriminate.
Qed.

Lemma is_tag_prefix (a b : string) : tag_pattern (a ++ b) = None -> is_tag a = false.
Proof.
  intros H. unfold is_tag. destruct (tag_pattern a) as [n|] eqn:E; [|reflexivity].
  rewrite (tag_pattern_append a b n E) in H. discriminate.
Qed.

Lemma text_and_tags_one (text : string) :
  is_tag text = false -> text_and_tags [text].
Proof.
  intros H. split; [reflexivity|].
  intros [|[|i]] part; simpl; try discriminate.
  intros E. now injection E as <-.
Qed.

Lemma text_and_tags_more (text tag : string) (rest : list string) :
  is_tag text = false -> is_tag tag = true -> text_and_tags rest ->
  text_and_tags (text :: tag :: rest).
Proof.
  intros Htext Htag [Hodd Hrest]. split.
  - cbn [List.length]. now rewrite Nat.odd_succ_succ.
  - intros [|[|i]] part; cbn [nth_error].
    + intros E. now injection E as <-.
    + intros E. now injection E as <-.
    + rewrite Nat.odd_succ_succ. apply Hrest.
Qed.

Lemma split_tags (n : nat) :
  forall s cur, String.length s <= n ->
    cur = "" \/ tag_pattern (cur ++ s) = None ->
    text_and_tags (split_go tag_pattern true 0 cur s).
Proof.
  induction n as [|n IH]; intros [|c r] cur Hlen Hcur; simpl in Hlen; try lia.
  - apply text_and_tags_one. destruct Hcur as [->|H]; [reflexivity|].
    now apply (is_tag_prefix cur "").
  - apply text_and_tags_one. destruct Hcur as [->|H]; [reflexivity|].
    now apply (is_tag_prefix cur "").
  - rewrite split_go_step.
    destruct (tag_pattern (String c r)) as [[|k]|] eqn:E.
    + now apply tag_pattern_not_zero in E.
    + apply text_and_tags_more.
      * destruct Hcur as [->|H]; [reflexivity|]. now apply (is_tag_prefix cur (String c r)).
      * now apply tag_pattern_take.
      * apply IH; [rewrite length_drop; lia | now left].
    + apply IH; [lia|]. right. rewrite append_assoc.
      destruct Hcur as [->|H]; [exact E | exact H].
Qed.

(** The split of the splitter is text, tag, text, ..., text: the
    tokens at the odd places are the tags, and no text token passes the
    test for a tag that the loop applies to it. *)
Theorem tag_split_alternates (text : string) :
  let parts := re_split tag_pattern text in
  Nat.odd (List.length parts) = true /\
  forall i part, nth_error parts i = Some part -> is_tag part = Nat.odd i.
Proof.
  apply (split_tags (String.length text) text "" (le_n _)). now left.
Qed.

(** ** Text without tags *)

Lemma tag_pattern_nowhere (text : string) :
  all_chars (is_not "<") text = true -> forall n, tag_pattern (drop n text) = None.
Proof.
  intros H n. apply (all_chars_drop _ n) in H.
  destruct (drop n text) as [|c r]; [reflexivity|].
  simpl in H. apply andb_true_iff in H as [H _].
  unfold is_not in H. apply negb_true_iff in H.
  now rewrite tag_pattern_cons, (Ascii.eqb_sym "<" c), H.
Qed.

(** A fragment without an opening angle bracket is one text token, and
    the splitter returns its transliteration, escaped. *)
Theorem text_without_tags_is_transliterated_whole
    (ACIPtoEWTS toUnicode : string -> string) (text : string) :
  all_chars (is_not "<") text = true ->
  re_split tag_pattern text = [text] /\
  convert_text_components ACIPtoEWTS toUnicode text =
    escape (ACIP_transform ACIPtoEWTS toUnicode text false).
Proof.
  intros H.
  assert (Hsplit : re_split tag_pattern text = [text]).
  { unfold re_split. now rewrite (split_go_nowhere _ _ text (tag_pattern_nowhere text H)). }
  split; [exact Hsplit|].
  unfold convert_text_components. rewrite Hsplit. simpl fold_left.
  rewrite convert_part_text.
  - simpl. now rewrite append_empty_r.
  - unfold is_tag. pose proof (tag_pattern_nowhere text H 0) as H0.
    simpl in H0. now rewrite H0.
Qed.

Lemma text_without_tags_example :
  convert_text_components untransliterated untransliterated "ka & kha" = "ka &amp; kha".
Proof.
  rewrite (proj2 (text_without_tags_is_transliterated_whole
                    untransliterated untransliterated "ka & kha" eq_refl)).
  reflexivity.
Defined.

(** ** [convert_line] and the blanks around the paragraph *)

(** [convert_line] does not see the spaces, tabs, newlines and carriage
    returns around a paragraph. *)
Theorem convert_line_ignores_surrounding_blanks
    (ACIPtoEWTS toUnicode : string -> string) (is_valid_xml : string -> bool)
    (line : string) (variant_mode : Z) :
  convert_line ACIPtoEWTS toUnicode is_valid_xml (strip line_trim line) variant_mode =
  convert_line ACIPtoEWTS toUnicode is_valid_xml line variant_mode.
Proof.
  assert (H : original_line_str (strip line_trim line) = original_line_str line).
  { unfold original_line_str. now rewrite strip_idempotent. }
  unfold convert_line, candidate, annotate. cbv zeta. now rewrite H.
Qed.

(** ** [clean_page_number] and the case of the letters *)

(** Page markers that differ only in the case of their letters get the
    same label. *)
Theorem clean_page_number_ignores_case (s t : string) :
  lower s = lower t ->
  clean_page_number (Some s) = clean_page_number (Some t).
Proof.
  intros H. unfold clean_page_number. now rewrite !lower_lstrip_zeros, H.
Qed.

Lemma clean_page_number_ignores_case_example :
  clean_page_number (Some "012B") = clean_page_number (Some "012b").
Proof. apply clean_page_number_ignores_case. reflexivity. Defined.

(** ** The pages and paragraphs of [parse_document] *)

Lemma close_page_numbering (st : parse_state) :
  numbering_state st ->
  numbered_after_first (close_page st) /\ labels_clean (close_page st).
Proof.
  intros (Hnone & Hnum & Hlab). unfold close_page.
  destruct (page_pending st); [|now split]. split.
  - intros pg Hpg. destruct (pages st) as [|p0 ps] eqn:E.
    + destruct Hpg.
    + simpl in Hpg. apply in_app_or in Hpg as [Hpg|[<-|[]]].
      * apply Hnum. exact Hpg.
      * simpl. destruct (current_page st) as [label|]; [discriminate|].
        now specialize (Hnone eq_refl).
  - intros pg label Hpg Hl. apply in_app_or in Hpg as [Hpg|[<-|[]]].
    + exact (Hlab pg label Hpg Hl).
    + simpl in Hl. destruct (current_page st) as [marker|]; [|discriminate].
      simpl in Hl. injection Hl as <-. apply filter_chars_all.
Qed.

Lemma parse_step_numbering (st : parse_state) (part : string) :
  numbering_state st -> numbering_state (parse_step st part).
Proof.
  intros H. unfold parse_step.
  destruct (page_match part) as [label|].
  - destruct (close_page_numbering st H) as [Hn Hl].
    split; [discriminate|]. now split.
  - now destruct (non_empty (strip_ws part)).
Qed.

Lemma parse_loop_numbering (parts : list string) :
  forall st, numbering_state st -> numbering_state (fold_left parse_step parts st).
Proof.
  induction parts as [|part rest IH]; intros st H; [exact H|].
  simpl. apply IH. now apply parse_step_numbering.
Qed.

Lemma first_page_repair_numbering (ps : list page) :
  numbered_after_first ps -> labels_clean ps ->
  numbered_after_first (first_page_repair ps) /\ labels_clean (first_page_repair ps).
Proof.
  intros Hn Hl. unfold first_page_repair.
  destruct ps as [|p0 [|p1 [|p2 rest]]]; try (now split).
  destruct (number_is_none p0 && (number_is p1 "1a" || number_is p1 "1")
            && number_is p2 "2a"); [|now split].
  split.
  - intros pg [<-|Hpg]; [discriminate|]. apply Hn. now right.
  - intros pg label [<-|[<-|Hpg]] E.
    + injection E as <-. reflexivity.
    + injection E as <-. reflexivity.
    + apply (Hl pg label); [right; right; exact Hpg | exact E].
Qed.

(** In a parsed document only the first page may lack a number (the
    text before the first marker), and every number is made of digits
    and the letters a and b only. *)
Theorem parse_document_page_numbers (text : string) :
  (forall pg, In pg (tl (parse_document text)) -> number pg <> None) /\
  (forall pg label, In pg (parse_document text) -> number pg = Some label ->
                    all_chars is_label_char label = true).
Proof.
  unfold parse_document, parse_pages.
  set (st := fold_left parse_step _ _).
  assert (H : numbering_state st).
  { apply parse_loop_numbering. split; [reflexivity|].
    split; [intros pg [] | intros pg label []]. }
  destruct (close_page_numbering st H) as [Hn Hl].
  exact (first_page_repair_numbering _ Hn Hl).
Qed.

(** What holds of every paragraph of a chunk holds of every paragraph
    of the document. *)
Section Paragraphs.

Variable keeps : string -> Prop.
Hypothesis paragraphs_keep : forall part para, In para (paragraphs part) -> keeps para.

Local Abbreviation kept_pages ps :=
  (forall pg para, In pg ps -> In para (content pg) -> keeps para).
Local Abbreviation kept_state st :=
  (kept_pages (pages st) /\ forall para, In para (current_content st) -> keeps para).

Lemma close_page_keeps (st : parse_state) : kept_state st -> kept_pages (close_page st).
Proof.
  intros [Hp Hc]. unfold close_page.
  destruct (page_pending st); [|exact Hp].
  intros pg para Hpg Hin. apply in_app_or in Hpg as [Hpg|[<-|[]]].
  - exact (Hp pg para Hpg Hin).
  - exact (Hc para Hin).
Qed.

Lemma parse_step_keeps (st : parse_state) (part : string) :
  kept_state st -> kept_state (parse_step st part).
Proof.
  intros H. unfold parse_step.
  destruct (page_match part) as [label|].
  - split; [exact (close_page_keeps st H) | intros para []].
  - destruct (non_empty (strip_ws part)); [|exact H].
    destruct H as [Hp Hc]. split; [exact Hp|]. simpl.
    intros para Hin. apply in_app_or in Hin as [Hin|Hin].
    + exact (Hc para Hin).
    + exact (paragraphs_keep part para Hin).
Qed.

Lemma parse_loop_keeps (parts : list string) :
  forall st, kept_state st -> kept_state (fold_left parse_step parts st).
Proof.
  induction parts as [|part rest IH]; intros st H; [exact H|].
  simpl. apply IH. now apply parse_step_keeps.
Qed.

Lemma first_page_repair_keeps (ps : list page) :
  kept_pages ps -> kept_pages (first_page_repair ps).
Proof.
  intros H. unfold first_page_repair.
  destruct ps as [|p0 [|p1 [|p2 rest]]]; try exact H.
  destruct (number_is_none p0 && (number_is p1 "1a" || number_is p1 "1")
            && number_is p2 "2a"); [|exact H].
  intros pg para Hpg Hin.
  destruct Hpg as [<-|[<-|Hpg]].
  - apply (H p0 para); [now left | exact Hin].
  - apply (H p1 para); [right; now left | exact Hin].
  - apply (H pg para); [right; right; exact Hpg | exact Hin].
Qed.

Lemma parse_document_keeps (text : string) : kept_pages (parse_document text).
Proof.
  unfold parse_document, parse_pages.
  apply first_page_repair_keeps, close_page_keeps, parse_loop_keeps.
  split; [intros pg para [] | intros para []].
Qed.

End Paragraphs.

Lemma all_chars_lstrip (p f : ascii -> bool) (s : string) :
  all_chars p s = true -> all_chars p (lstrip f s) = true.
Proof.
  induction s as [|c r IH]; [reflexivity|]. intros H. simpl.
  destruct (f c); [|exact H].
  simpl in H. apply andb_true_iff in H as [_ H]. now apply IH.
Qed.

Lemma all_chars_rstrip (p f : ascii -> bool) (s : string) :
  all_chars p s = true -> all_chars p (rstrip f s) = true.
Proof.
  induction s as [|c r IH]; [reflexivity|]. intros H. simpl in *.
  apply andb_true_iff in H as [Hc Hr]. specialize (IH Hr).
  destruct (rstrip f r) as [|d r'].
  - destruct (f c); [reflexivity|]. simpl. now rewrite Hc.
  - simpl. rewrite Hc. exact IH.
Qed.

Lemma all_chars_strip (p f : ascii -> bool) (s : string) :
  all_chars p s = true -> all_chars p (strip f s) = true.
Proof. intros H. now apply all_chars_rstrip, all_chars_lstrip. Qed.

(** Every paragraph of a parsed document is one line: it holds no
    newline, it is not empty, and it has no white space at its ends. *)
Theorem parse_document_paragraphs_are_lines (text : string) :
  forall pg para,
    In pg (parse_document text) -> In para (content pg) ->
    all_chars (is_not LF) para = true /\ para <> "" /\ strip_ws para = para.
Proof.
  apply parse_document_keeps. intros part para H.
  unfold paragraphs in H. apply in_map_iff in H as (p & <- & Hp).
  apply filter_In in Hp as [_ Hp]. apply strip_non_empty in Hp.
  split; [|split].
  - apply all_chars_strip. unfold replace, re_sub.
    apply sub_go_all_chars.
    + apply (literal_replacement_chars (is_not LF) "  " " "). reflexivity.
    + apply (replace_char_removes LF " "). reflexivity.
  - apply (replace_keeps_other is_space (str LF) " ") in Hp; [|reflexivity].
    apply (replace_keeps_other is_space "  " " ") in Hp; [|reflexivity].
    exact (proj1 (strip_strip is_space is_space _ (fun c H => H) Hp)).
  - apply strip_idempotent.
Qed.

(** ** A text without page marker *)

Lemma all_chars_repeat (p : ascii -> bool) (c : ascii) (n : nat) :
  p c = true -> all_chars p (repeat_char c n) = true.
Proof. intros H. induction n as [|n IH]; simpl; [reflexivity | now rewrite H, IH]. Qed.

Lemma all_chars_balance (p : ascii -> bool) (s : string) (c1 c2 : ascii) :
  p c1 = true -> p c2 = true -> all_chars p s = true ->
  all_chars p (balance_parentheses s c1 c2) = true.
Proof.
  intros H1 H2 Hs. unfold balance_parentheses.
  destruct (count c2 s <? count c1 s).
  - now rewrite all_chars_append, Hs, all_chars_repeat.
  - destruct (count c1 s <? count c2 s); [|exact Hs].
    now rewrite all_chars_append, Hs, all_chars_repeat.
Qed.

(** The chunks of a split and its delimiters make up the subject. *)
Lemma split_go_keeps_other (f : ascii -> bool) (m : string -> option nat) :
  (forall t n, m t = Some n -> all_chars f (take n t) = true) ->
  forall s k cur,
    Forall (fun p => all_chars f p = true) (split_go m false k cur s) ->
    all_chars f (cur ++ drop k s) = true.
Proof.
  intros Hm. induction s as [|c r IH]; intros k cur H.
  - rewrite drop_empty, append_empty_r. simpl in H. now inversion H.
  - destruct k as [|k]; [|exact (IH k cur H)].
    rewrite split_go_step in H. simpl drop.
    destruct (m (String c r)) as [[|j]|] eqn:E.
    + apply (IH 0) in H. simpl in H. now rewrite append_assoc in H.
    + simpl in H. inversion H as [|x l Hcur Hrest]; subst.
      rewrite <- split_go_skip in Hrest. apply IH in Hrest. simpl in Hrest.
      rewrite all_chars_append, Hcur. cbn [andb].
      apply (take_drop_all f (S j)); [exact (Hm _ _ E) | exact Hrest].
    + apply (IH 0) in H. simpl in H. now rewrite append_assoc in H.
Qed.

Lemma strip_empty (f : ascii -> bool) (s : string) :
  non_empty (strip f s) = false -> all_chars f s = true.
Proof.
  intros H. destruct (all_chars f s) eqn:E; [reflexivity|].
  destruct (strip_strip f f s (fun c Hc => Hc) E) as [Hne _].
  destruct (strip f s); [now elim Hne | discriminate].
Qed.

(** A chunk that is not blank has a paragraph. *)
Lemma paragraphs_not_empty (part : string) :
  non_empty (strip_ws part) = true -> paragraphs part <> [].
Proof.
  intros H Hnone. apply strip_non_empty in H.
  unfold paragraphs in Hnone. apply map_eq_nil in Hnone.
  assert (Hall : Forall (fun p => all_chars is_space p = true)
                   (str_split (String LF (str LF)) part)).
  { apply Forall_forall. intros p Hp.
    apply strip_empty. destruct (non_empty (strip is_space p)) eqn:E; [|reflexivity].
    assert (Hin : In p (filter (fun p => non_empty (strip_ws p))
                          (str_split (String LF (str LF)) part)))
      by (apply filter_In; split; [exact Hp | exact E]).
    rewrite Hnone in Hin. destruct Hin. }
  apply (split_go_keeps_other is_space) in Hall.
  - simpl in Hall. congruence.
  - intros t n. destruct (startswith (String LF (str LF)) t) eqn:E; [|discriminate].
    intros Hn. injection Hn as <-.
    pose proof (startswith_take _ _ E) as Ht. simpl String.length in *.
    now rewrite Ht.
Qed.

Lemma page_marker_nowhere (text : string) :
  all_chars (is_not "@") text = true -> forall n, page_marker (drop n text) = None.
Proof.
  intros H n. apply (all_chars_drop _ n) in H.
  destruct (drop n text) as [|c r]; [reflexivity|].
  simpl in H. apply andb_true_iff in H as [H _].
  unfold is_not in H. apply negb_true_iff in H.
  unfold page_marker. simpl startswith.
  now rewrite (Ascii.eqb_sym "@" c), H.
Qed.

(** A text without page marker makes one page without number, which
    holds its paragraphs; a blank text makes no page at all. *)
Theorem parse_document_without_marker (text : string) :
  all_chars (is_not "@") text = true ->
  let text' := balance_parentheses text "(" ")" in
  parse_document text =
    if non_empty (strip_ws text')
    then [{| number := None; content := paragraphs text' |}]
    else [].
Proof.
  intros H text'.
  assert (H' : all_chars (is_not "@") text' = true)
    by (apply all_chars_balance; [reflexivity | reflexivity | exact H]).
  unfold parse_document, parse_pages. fold text'.
  unfold re_split.
  rewrite (split_go_nowhere _ _ text' (page_marker_nowhere text' H')).
  simpl fold_left. unfold parse_step, page_match.
  pose proof (page_marker_nowhere text' H' 0) as H0. simpl in H0. rewrite H0.
  destruct (non_empty (strip_ws text')) eqn:E; [|reflexivity].
  unfold close_page, page_pending. simpl.
  pose proof (paragraphs_not_empty text' E) as Hne.
  destruct (paragraphs text') as [|p ps]; [now elim Hne | reflexivity].
Qed.

Lemma parse_document_without_marker_example :
  parse_document ("one" ++ str LF ++ "line" ++ String LF (str LF) ++ " two ") =
  [{| number := None; content := ["one line"; "two"] |}].
Proof.
  rewrite (parse_document_without_marker
             ("one" ++ str LF ++ "line" ++ String LF (str LF) ++ " two ") eq_refl).
  reflexivity.
Defined.

(** ** A paragraph without markup *)

Lemma all_chars_weaken (p p' : ascii -> bool) (s : string) :
  (forall c, p c = true -> p' c = true) ->
  all_chars p s = true -> all_chars p' s = true.
Proof.
  intros Hpp. induction s as [|c r IH]; [reflexivity|]. simpl.
  intros H. apply andb_true_iff in H as [Hc Hr]. now rewrite (Hpp c Hc), IH.
Qed.

Lemma plain_spec (c : ascii) :
  plain c = true ->
  unmarked c = true /\ is_not "[" c = true /\ is_not "]" c = true /\ is_not "<" c = true.
Proof.
  unfold plain, unmarked, is_not. simpl.
  destruct (Ascii.eqb c "("), (Ascii.eqb c "["), (Ascii.eqb c "]"),
    (Ascii.eqb c "{"), (Ascii.eqb c "<"); simpl; intros H; try discriminate.
  now repeat split.
Qed.

Lemma unmarked_spec (c : ascii) :
  unmarked c = true ->
  Ascii.eqb "(" c = false /\ Ascii.eqb "[" c = false /\ Ascii.eqb "{" c = false.
Proof.
  unfold unmarked. simpl.
  rewrite (Ascii.eqb_sym c "("), (Ascii.eqb_sym c "["), (Ascii.eqb_sym c "{").
  destruct (Ascii.eqb "(" c), (Ascii.eqb "[" c), (Ascii.eqb "{" c);
    simpl; intros H; try discriminate.
  now repeat split.
Qed.

Lemma count_none (c : ascii) (s : string) :
  all_chars (is_not c) s = true -> count c s = 0.
Proof.
  induction s as [|x r IH]; [reflexivity|]. simpl.
  intros H. apply andb_true_iff in H as [Hx Hr].
  unfold is_not in Hx. apply negb_true_iff in Hx. now rewrite Hx, IH.
Qed.

Lemma starts_marked_nowhere (m : matcher) (s : string) :
  starts_marked m -> (forall b, m b "" = None) ->
  all_chars unmarked s = true -> matches_nowhere m s.
Proof.
  intros Hm Hempty H n b. apply (all_chars_drop _ n) in H.
  destruct (drop n s) as [|c r]; [apply Hempty|].
  simpl in H. apply andb_true_iff in H as [H _]. now apply Hm.
Qed.

Lemma literal_starts_marked (c : ascii) (tail new : string) :
  unmarked c = false -> starts_marked (literal (String c tail) new).
Proof.
  intros Hc b x r Hx. unfold literal. simpl.
  destruct (Ascii.eqb_spec c x) as [->|_]; [congruence | reflexivity].
Qed.

Ltac starts_with_marker :=
  let b := fresh in let c := fresh in let r := fresh in let H := fresh in
  intros b c r H; apply unmarked_spec in H as (? & ? & ?);
  unfold paren_pattern, note_pattern, figure_pattern, unclear_pattern;
  simpl startswith;
  repeat match goal with
         | E : Ascii.eqb _ c = false |- _ => rewrite E; clear E
         end;
  reflexivity.

Lemma paren_starts_marked : starts_marked paren_pattern.
Proof. starts_with_marker. Qed.

Lemma note_starts_marked : starts_marked note_pattern.
Proof. starts_with_marker. Qed.

Lemma figure_starts_marked : starts_marked figure_pattern.
Proof. starts_with_marker. Qed.

Lemma unclear_starts_marked : starts_marked unclear_pattern.
Proof. starts_with_marker. Qed.

Lemma no_bracket_ahead (t : string) (n : nat) :
  all_chars (is_not "[") t = true -> startswith "[" (drop n t) = false.
Proof.
  intros H. apply (all_chars_drop _ n) in H.
  destruct (drop n t) as [|c r]; [reflexivity|].
  simpl in H. apply andb_true_iff in H as [H _].
  unfold is_not in H. apply negb_true_iff in H.
  simpl. now rewrite (Ascii.eqb_sym "[" c), H.
Qed.

Lemma variant_short_none (t : string) (j : nat) :
  all_chars (is_not "[") t = true -> variant_short t j = None.
Proof.
  intros H. induction j as [|j IH]; [reflexivity|].
  cbn [variant_short]. now rewrite (no_bracket_ahead t (S j) H).
Qed.

Lemma variant_tail_none (t : string) :
  all_chars (is_not "[") t = true -> variant_tail t = None.
Proof.
  intros H. unfold variant_tail.
  destruct (span not_space t) as [|l]; [reflexivity|].
  rewrite (no_bracket_ahead t _ H). now apply variant_short_none.
Qed.

Lemma variant_nowhere (s : string) :
  all_chars (is_not "[") s = true -> matches_nowhere variant_pattern s.
Proof.
  intros H n b. apply (all_chars_drop _ n) in H.
  unfold variant_pattern.
  rewrite (variant_tail_none _ H).
  destruct (span is_space (drop n s)) as [|w].
  - now destruct b.
  - rewrite (variant_tail_none _ (all_chars_drop _ (S w) _ H)). now destruct b.
Qed.

Lemma original_line_str_chars (p : ascii -> bool) (line : string) :
  p " "%char = true -> all_chars p line = true ->
  all_chars p (original_line_str line) = true.
Proof.
  intros Hsp H. unfold original_line_str.
  pose proof (all_chars_strip p line_trim line H) as Hs.
  destruct (ends_in_letter (strip line_trim line)); [|exact Hs].
  rewrite all_chars_append, Hs. simpl. now rewrite Hsp.
Qed.

(** Without any of the characters ( [ ] { < the rules leave the
    paragraph alone. *)
Lemma annotate_plain (line : string) (variant_mode : Z) :
  all_chars plain line = true ->
  annotate line variant_mode = "<lb/>" ++ original_line_str line.
Proof.
  intros H.
  pose proof (original_line_str_chars plain line eq_refl H) as Ho.
  set (o := original_line_str line) in *.
  assert (Hopen : all_chars (is_not "[") o = true)
    by (apply (all_chars_weaken plain); [intros c Hc; apply (plain_spec c Hc) | exact Ho]).
  assert (Hclose : all_chars (is_not "]") o = true)
    by (apply (all_chars_weaken plain); [intros c Hc; apply (plain_spec c Hc) | exact Ho]).
  assert (Hu : all_chars unmarked ("<lb/>" ++ o) = true).
  { rewrite all_chars_append. apply andb_true_iff. split; [reflexivity|].
    apply (all_chars_weaken plain); [intros c Hc; apply (plain_spec c Hc) | exact Ho]. }
  assert (Hb : all_chars (is_not "[") ("<lb/>" ++ o) = true)
    by (rewrite all_chars_append; apply andb_true_iff; split; [reflexivity | exact Hopen]).
  unfold annotate. fold o.
  rewrite (balance_equal o "[" "]")
    by (now rewrite (count_none "[" o Hopen), (count_none "]" o Hclose)).
  unfold replace, re_sub. cbv zeta.
  rewrite (sub_go_fixed (literal "[?]" GAP) _ true)
    by (apply starts_marked_nowhere;
        [now apply literal_starts_marked | reflexivity | exact Hu]).
  rewrite (sub_go_fixed paren_pattern _ true)
    by (apply starts_marked_nowhere;
        [apply paren_starts_marked | reflexivity | exact Hu]).
  rewrite (sub_go_fixed note_pattern _ true)
    by (apply starts_marked_nowhere;
        [apply note_starts_marked | reflexivity | exact Hu]).
  rewrite (sub_go_fixed (literal "[LL]" _) _ true)
    by (apply starts_marked_nowhere;
        [now apply literal_starts_marked | reflexivity | exact Hu]).
  rewrite (sub_go_fixed (literal "[DR]" _) _ true)
    by (apply starts_marked_nowhere;
        [now apply literal_starts_marked | reflexivity | exact Hu]).
  rewrite (sub_go_fixed (literal "{DD}" _) _ true)
    by (apply starts_marked_nowhere;
        [now apply literal_starts_marked | reflexivity | exact Hu]).
  rewrite (sub_go_fixed figure_pattern _ true)
    by (apply starts_marked_nowhere;
        [apply figure_starts_marked | reflexivity | exact Hu]).
  destruct (variant_mode =? 1)%Z.
  - apply sub_go_fixed. now apply variant_nowhere.
  - apply sub_go_fixed. apply starts_marked_nowhere;
      [apply unclear_starts_marked | reflexivity | exact Hu].
Qed.

Lemma split_line_break (o : string) :
  all_chars (is_not "<") o = true ->
  re_split tag_pattern ("<lb/>" ++ o) = [""; "<lb/>"; o].
Proof.
  intros H. unfold re_split. cbn [append].
  rewrite split_go_step.
  replace (tag_pattern (String "<" (String "l" (String "b" (String "/" (String ">" o))))))
    with (Some 5) by reflexivity.
  cbn [take drop app].
  now rewrite (split_go_nowhere _ _ o (tag_pattern_nowhere o H)).
Qed.

(** A paragraph that holds none of the characters ( [ ] { < gets no
    markup but the line-break marker, under either policy: its
    candidate fragment is the marker followed by the escaped
    transliteration of the trimmed paragraph (with the space for the
    final tsheg), which is also what the fallback would start from. *)
Theorem plain_paragraph_is_transliterated_whole
    (ACIPtoEWTS toUnicode : string -> string) (line : string) (variant_mode : Z) :
  all_chars plain line = true ->
  annotate line variant_mode = "<lb/>" ++ original_line_str line /\
  candidate ACIPtoEWTS toUnicode line variant_mode =
    escape (ACIP_transform ACIPtoEWTS toUnicode "" false) ++ "<lb/>"
    ++ escape (ACIP_transform ACIPtoEWTS toUnicode (original_line_str line) false).
Proof.
  intros H. split; [now apply annotate_plain|].
  assert (Ho : all_chars (is_not "<") (original_line_str line) = true).
  { apply (all_chars_weaken plain); [intros c Hc; apply (plain_spec c Hc)|].
    now apply original_line_str_chars. }
  unfold candidate, convert_text_components.
  rewrite (annotate_plain line variant_mode H), (split_line_break _ Ho).
  cbn [fold_left].
  rewrite (convert_part_text _ _ splitter_init "") by reflexivity.
  rewrite (convert_part_tag _ _ _ "<lb/>") by reflexivity.
  rewrite convert_part_text.
  - unfold splitter_init. cbn [result skip last_is_shad].
    replace (should_skip_tag "<lb/>") with false by reflexivity.
    cbn [negb andb app join]. cbn [append].
    now rewrite append_empty_r.
  - cbn [result skip last_is_shad]. unfold is_tag.
    pose proof (tag_pattern_nowhere _ Ho 0) as H0. simpl in H0. now rewrite H0.
Qed.

Lemma plain_paragraph_example :
  candidate capitals untransliterated " ka kha " 1 = "<lb/>KA KHA ".
Proof.
  rewrite (proj2 (plain_paragraph_is_transliterated_whole
                    capitals untransliterated " ka kha " 1 eq_refl)).
  reflexivity.
Defined.

(** ** The names that [convert_all] gives to a text *)

Lemma dict_get_In {V : Type} (dic : dict V) (key : string) (value : V) :
  dict_get dic key = Some value -> In (key, value) dic.
Proof.
  induction dic as [|[k v] rest IH]; [discriminate|]. simpl.
  destruct (String.eqb_spec k key) as [->|_].
  - intros H. injection H as ->. now left.
  - intros H. right. now apply IH.
Qed.

Lemma volumes_declared : forallb (fun item => volume_declared (snd item)) rev_volume = true.
Proof. vm_compute. reflexivity. Qed.

(** The two scripts agree on the volumes: a text that [GROUPS] lists is
    converted into the etext instance of its group, under the volume
    name that [import_row] declares for that group at the place of the
    text's volume, and [import_row] declares as many volumes as the
    group has. *)
Theorem grouped_text_goes_to_a_declared_volume (base : string) (info : volume_info) :
  dict_get rev_volume (strip base_trim base) = Some info ->
  let names := convert_all_lnames base in
  ie_lname names = "IE1AL" ++ d info /\
  nth_error (import_row_vols (d info)) (vol_i info - 1) = Some (ve_lname names) /\
  List.length (import_row_vols (d info)) = nbvols info.
Proof.
  intros H names. subst names. unfold convert_all_lnames. cbv zeta. rewrite H.
  cbn [ie_lname ve_lname].
  pose proof volumes_declared as Hall. rewrite forallb_forall in Hall.
  specialize (Hall _ (dict_get_In _ _ _ H)). cbn [snd] in Hall.
  unfold volume_declared in Hall. apply andb_true_iff in Hall as [Hve Hlen].
  split; [reflexivity|]. split.
  - destruct (nth_error (import_row_vols (d info)) (vol_i info - 1)) as [x|];
      [|discriminate].
    simpl in Hve. apply String.eqb_eq in Hve. now subst x.
  - now apply Nat.eqb_eq.
Qed.

Lemma grouped_text_example :
  ie_lname (convert_all_lnames "R0002T.") = "IE1ALD50934" /\
  nth_error (import_row_vols "D50934") 1 = Some (ve_lname (convert_all_lnames "R0002T.")) /\
  List.length (import_row_vols "D50934") = 3.
Proof.
  exact (grouped_text_goes_to_a_declared_volume "R0002T."
           {| d := "D50934"; vol_i := 2; txt_i := 1; nbvols := 3 |} eq_refl).
Defined.

Lemma append_cancel_r (a b c : string) : a ++ c = b ++ c -> a = b.
Proof.
  revert b; induction a as [|x a IH]; intros [|y b] H.
  - reflexivity.
  - apply (f_equal String.length) in H. simpl in H. rewrite length_append in H. lia.
  - apply (f_equal String.length) in H. simpl in H. rewrite length_append in H. lia.
  - simpl in H. injection H as -> H. now rewrite (IH b H).
Qed.

Lemma no_clash_in_groups_holds : no_clash_in_groups = true.
Proof. vm_compute. reflexivity. Qed.

(** Two texts that [GROUPS] lists never get the same output file, nor
    do two that it does not list (up to the spaces and dots that are
    trimmed off the file name).  A listed and an unlisted one can:
    [S00005N] and a file named after its group, [D61732], are written
    to one and the same path. *)
Theorem output_names_clash_only_across_groups :
  (forall base1 base2 info1 info2,
      dict_get rev_volume (strip base_trim base1) = Some info1 ->
      dict_get rev_volume (strip base_trim base2) = Some info2 ->
      ut_lname (convert_all_lnames base1) = ut_lname (convert_all_lnames base2) ->
      strip base_trim base1 = strip base_trim base2) /\
  (forall base1 base2,
      dict_get rev_volume (strip base_trim base1) = None ->
      dict_get rev_volume (strip base_trim base2) = None ->
      ut_lname (convert_all_lnames base1) = ut_lname (convert_all_lnames base2) ->
      strip base_trim base1 = strip base_trim base2) /\
  path_to_output_file (convert_all_lnames "S00005N") =
  path_to_output_file (convert_all_lnames "D61732").
Proof.
  split; [|split].
  - intros base1 base2 info1 info2 H1 H2. unfold convert_all_lnames. cbv zeta.
    rewrite H1, H2. cbn [ut_lname]. intros E.
    pose proof no_clash_in_groups_holds as Hall. unfold no_clash_in_groups in Hall.
    rewrite forallb_forall in Hall.
    specialize (Hall _ (dict_get_In _ _ _ H1)). rewrite forallb_forall in Hall.
    specialize (Hall _ (dict_get_In _ _ _ H2)). cbn [fst snd] in Hall.
    unfold group_ut_lname in Hall. rewrite E, String.eqb_refl in Hall.
    now apply String.eqb_eq.
  - intros base1 base2 H1 H2. unfold convert_all_lnames. cbv zeta.
    rewrite H1, H2. cbn [ut_lname]. intros E.
    simpl in E. injection E as E.
    now apply append_cancel_r in E.
  - vm_compute. reflexivity.
Qed.

Lemma parse_document_paragraphs_example :
  all_chars (is_not LF) "one line" = true /\ "one line" <> "" /\
  strip_ws "one line" = "one line".
Proof.
  apply (parse_document_paragraphs_are_lines
           ("@1a one" ++ str LF ++ "line" ++ String LF (str LF) ++ "two")
           {| number := Some "1a"; content := ["one line"; "two"] |} "one line").
  - vm_compute. now left.
  - now left.
Defined.
